(** * Navigation state machine of the SSD1306 bonnet status display

    A shallow embedding of [src/ip_display.py] (class [SystemMonitor]) and
    the properties of its screen/command navigation, of the idle
    auto-advance rule of the render loop and of the start-up and failure
    paths of [run].

    Conventions.
    - Python integers are [Z]; [%] with a non-zero right operand is
      [Z.modulo] (both take the sign of the divisor, so [(0 - 1) mod 4 = 3]).
    - Readings of [time.time()] are rationals [Q]; every function that reads
      the clock takes the reading as an argument.
    - Everything the program does to the outside world (stdout, the OLED,
      the spawned process, sleeping) is recorded as a list of [event]s; what
      the outside world answers (an I2C error, a failing subprocess, Ctrl-C)
      is an argument of the function that asks. *)

From Stdlib Require Import ZArith QArith List String Ascii Bool Lia Lqa.
From Stdlib Require Import DecimalString.
Import ListNotations.

Local Open Scope Z_scope.

(** ** Python helpers *)

(** [seq[i]] on a Python list: negative indices count from the end, an index
    outside [-len, len) raises [IndexError] (here [None]). *)
Definition py_index {A : Type} (l : list A) (i : Z) : option A :=
  let n := Z.of_nat (List.length l) in
  if (0 <=? i) && (i <? n) then nth_error l (Z.to_nat i)
  else if (- n <=? i) && (i <? 0) then nth_error l (Z.to_nat (n + i))
  else None.

(** [len(seq)]. *)
Definition len {A : Type} (l : list A) : Z := Z.of_nat (List.length l).

(** [str(n)] / [f"{n}"] for an integer. *)
Definition str_of_int (n : Z) : string := NilZero.string_of_int (Z.to_int n).

(** The characters [str.split()] treats as separators (ASCII whitespace). *)
Definition is_space (c : ascii) : bool :=
  let n := nat_of_ascii c in
  ((9 <=? n) && (n <=? 13))%nat || ((28 <=? n) && (n <=? 32))%nat.

(** [s.split()]: the maximal runs of non-whitespace characters of [s].
    [cur] is the run being read, in reverse. *)
Fixpoint split_from (cur : list ascii) (s : string) : list string :=
  let flush := match cur with
               | [] => []
               | _ => [string_of_list_ascii (rev cur)]
               end in
  match s with
  | EmptyString => flush
  | String c rest =>
      if is_space c then flush ++ split_from [] rest
      else split_from (c :: cur) rest
  end.

Definition split (s : string) : list string := split_from [] s.

(** [a > b] on clock readings. *)
Definition Qgtb (a b : Q) : bool := negb (Qle_bool a b).

(** ** The monitor object *)

(** The attributes of [SystemMonitor] that are assigned once in [__init__]
    and never again. *)
Definition total_screens : Z := 4.
Definition auto_advance_interval : Q := 10%Q.
Definition commands : list (string * string) :=
  [ ("Restart"%string, "sudo reboot"%string);
    ("Shutdown"%string, "sudo shutdown -h now"%string) ].

(** The navigation attributes of a [SystemMonitor]. *)
Record SystemMonitor : Type := mkMonitor {
  current_screen : Z;
  selected_command : Z;
  last_button_press : Q;
  auto_advance : bool
}.

(** [SystemMonitor.__init__], constructed when the clock reads [t0]. *)
Definition init (t0 : Q) : SystemMonitor :=
  {| current_screen := 0;
     selected_command := 0;
     last_button_press := t0;
     auto_advance := true |}.

(** The four screens, named as the draw routine [run] dispatches to. *)
Inductive panel : Type := Address | CpuHealth | DiskUsage | Commands.

(** The [if]/[elif] chain of [run] that picks the draw routine; an index
    outside 0..3 matches no branch and only the border is drawn. *)
Definition dispatch (screen : Z) : option panel :=
  if screen =? 0 then Some Address
  else if screen =? 1 then Some CpuHealth
  else if screen =? 2 then Some DiskUsage
  else if screen =? 3 then Some Commands
  else None.

(** ** Effects *)

Inductive exn : Type :=
| IndexError
| KeyboardInterrupt
| Exception (msg : string).

Inductive event : Type :=
| Stdout (line : string)
| OledInit (address : Z)          (* i2c(port=1, address) + ssd1306(...) *)
| LoadFont (name : string)
| Display (shown : option panel)  (* a frame of the main loop reaches the OLED *)
| ShowExecuting (label : string)  (* the "Executing..." frame *)
| ShowError (msg : string)        (* the "Error:" frame *)
| Subprocess (argv : list string) (* subprocess.run(argv, check=True) *)
| Sleep (seconds : Z)
| DeviceClear
| GpioCleanup.

(** What a button callback leaves behind: the object, what it wrote, and the
    exception that left the callback, if any. *)
Record result : Type := mkResult {
  after : SystemMonitor;
  output : list event;
  raised : option exn
}.

Definition returns (s : SystemMonitor) (out : list event) : result :=
  {| after := s; output := out; raised := None |}.

Definition raises (s : SystemMonitor) (out : list event) (e : exn) : result :=
  {| after := s; output := out; raised := Some e |}.

(** ** Button callbacks *)

(** [print(f"Selected command: {self.commands[self.selected_command][0]}")] *)
Definition print_selected (s : SystemMonitor) : result :=
  match py_index commands (selected_command s) with
  | Some (label, _) => returns s [Stdout ("Selected command: " ++ label)%string]
  | None => raises s [] IndexError
  end.

(** [SystemMonitor.prev_command], the clock reading [now]. *)
Definition prev_command (now : Q) (s : SystemMonitor) : result :=
  if current_screen s =? 3 then
    print_selected
      {| current_screen := current_screen s;
         selected_command := (selected_command s - 1) mod len commands;
         last_button_press := now;
         auto_advance := auto_advance s |}
  else returns s [].

(** [SystemMonitor.next_command]. *)
Definition next_command (now : Q) (s : SystemMonitor) : result :=
  if current_screen s =? 3 then
    print_selected
      {| current_screen := current_screen s;
         selected_command := (selected_command s + 1) mod len commands;
         last_button_press := now;
         auto_advance := auto_advance s |}
  else returns s [].

(** [print(f"Switched to screen {self.current_screen}")] *)
Definition print_switched (s : SystemMonitor) : result :=
  returns s [Stdout ("Switched to screen " ++ str_of_int (current_screen s))%string].

(** [SystemMonitor.prev_screen]. *)
Definition prev_screen (now : Q) (s : SystemMonitor) : result :=
  print_switched
    {| current_screen := (current_screen s - 1) mod total_screens;
       selected_command := selected_command s;
       last_button_press := now;
       auto_advance := auto_advance s |}.

(** [SystemMonitor.next_screen]. *)
Definition next_screen (now : Q) (s : SystemMonitor) : result :=
  print_switched
    {| current_screen := (current_screen s + 1) mod total_screens;
       selected_command := selected_command s;
       last_button_press := now;
       auto_advance := auto_advance s |}.

(** What the outside world answers during [execute_command]: [None] when the
    call completes, [Some e] when it raises an [Exception] whose text is [e]. *)
Record exec_env : Type := mkExecEnv {
  show_executing : option string;   (* the first [with canvas(...)] block *)
  subprocess_run : option string;   (* [subprocess.run(..., check=True)] *)
  show_error : option string        (* the [with canvas(...)] of the handler *)
}.

(** The [except Exception as e] handler of [execute_command]. *)
Definition execute_handler (env : exec_env) (s : SystemMonitor)
    (out : list event) (e : string) : result :=
  let out := out ++ [Stdout ("Error executing command: " ++ e)%string] in
  match show_error env with
  | Some e2 => raises s out (Exception e2)
  | None => returns s (out ++ [ShowError e; Sleep 3])
  end.

(** [SystemMonitor.execute_command]. *)
Definition execute_command (env : exec_env) (s : SystemMonitor) : result :=
  if current_screen s =? 3 then
    match py_index commands (selected_command s) with
    | None => raises s [] IndexError
    | Some (command_label, command) =>
        let out := [Stdout ("Executing command: " ++ command_label)%string] in
        match show_executing env with
        | Some e => execute_handler env s out e
        | None =>
            let out := out ++ [ShowExecuting command_label;
                               Subprocess (split command)] in
            match subprocess_run env with
            | Some e => execute_handler env s out e
            | None => returns s out
            end
        end
    end
  else returns s [].

(** ** The idle auto-advance rule *)

(** The [if] statement that opens every iteration of the loop of [run]
    (lines 311-314), with the clock reading and the threshold
    [self.auto_advance_interval] as arguments. *)
Definition maybe_auto_advance (current_time idle_threshold : Q)
    (s : SystemMonitor) : SystemMonitor :=
  if auto_advance s
     && negb (current_screen s =? 3)
     && Qgtb (current_time - last_button_press s)%Q idle_threshold
  then {| current_screen := (current_screen s + 1) mod total_screens;
          selected_command := selected_command s;
          last_button_press := current_time;
          auto_advance := auto_advance s |}
  else s.

(** ** Every way the object is written *)

(** A falling edge on one of the five buttons, as [setup_buttons] wires
    them; the callback reads the clock ([now]) or the outside world. *)
Inductive press : Type :=
| ButtonL (now : Q)           (* prev_screen *)
| ButtonR (now : Q)           (* next_screen *)
| ButtonA (now : Q)           (* prev_command *)
| ButtonB (now : Q)           (* next_command *)
| ButtonC (env : exec_env).   (* execute_command *)

Definition callback (p : press) (s : SystemMonitor) : result :=
  match p with
  | ButtonL now => prev_screen now s
  | ButtonR now => next_screen now s
  | ButtonA now => prev_command now s
  | ButtonB now => next_command now s
  | ButtonC env => execute_command env s
  end.

(** A mutation is a button callback or the auto-advance check of a tick. *)
Inductive mutation : Type :=
| Pressed (p : press)
| Idle (current_time idle_threshold : Q).

Definition mutate (m : mutation) (s : SystemMonitor) : SystemMonitor :=
  match m with
  | Pressed p => after (callback p s)
  | Idle current_time idle_threshold =>
      maybe_auto_advance current_time idle_threshold s
  end.

(** The objects that some interleaving of mutations produces from [s0]. *)
Inductive reachable_from (s0 : SystemMonitor) : SystemMonitor -> Prop :=
| reach_start : reachable_from s0 s0
| reach_step s m : reachable_from s0 s -> reachable_from s0 (mutate m s).

Definition mutate_all (ms : list mutation) (s : SystemMonitor) : SystemMonitor :=
  fold_left (fun s m => mutate m s) ms s.

(** The range conditions on the two indices. *)
Definition in_range (s : SystemMonitor) : Prop :=
  0 <= current_screen s < total_screens /\
  0 <= selected_command s < len commands.

(** ** [run] *)

(** What the outside world answers while [run] starts up. *)
Record startup_env : Type := mkStartup {
  gpio_available : bool;       (* the module-level GPIO_AVAILABLE *)
  oled_3C : option string;     (* [None]: the display answers at 0x3C *)
  oled_3D : option string;     (* [None]: the display answers at 0x3D *)
  liberation_font : bool;      (* the Liberation Mono file loads *)
  dejavu_font : bool           (* the DejaVu Sans Mono file loads *)
}.

(** What happens during one iteration of the loop. *)
Record tick_env : Type := mkTick {
  current_time : Q;             (* time.time() *)
  canvas_result : option exn;   (* [None]: the frame is drawn and displayed *)
  sleep_interrupted : bool;     (* Ctrl-C during time.sleep(1) *)
  presses : list press          (* callbacks that run while the loop sleeps *)
}.

Inductive run_status : Type :=
| Looping            (* inside [while True], waiting for the next tick *)
| Returned           (* the [return] of the start-up failure path *)
| Exited             (* the KeyboardInterrupt handler ran to its end *)
| Raised (e : exn).  (* an exception left [run] *)

Record run_result : Type := mkRun {
  final : SystemMonitor;
  trace : list event;
  status : run_status;
  iterations : nat    (* iterations of the loop that were started *)
}.

(** The callbacks of one tick, in order; an exception that leaves a
    callback stays in the GPIO thread. *)
Fixpoint run_presses (ps : list press) (s : SystemMonitor)
    : SystemMonitor * list event :=
  match ps with
  | [] => (s, [])
  | p :: ps' =>
      let r := callback p s in
      let (s', out) := run_presses ps' (after r) in
      (s', output r ++ out)
  end.

Definition newline : string := String (ascii_of_nat 10) EmptyString.

(** The [except KeyboardInterrupt] handler of [run]. *)
Definition on_interrupt (gpio : bool) (s : SystemMonitor) (out : list event)
    : run_result :=
  {| final := s;
     trace := out ++ [Stdout (newline ++ "Exiting...")%string; DeviceClear]
                  ++ (if gpio then [GpioCleanup] else []);
     status := Exited;
     iterations := 1 |}.

(** The [while True] loop of [run] on the ticks the outside world supplies. *)
Fixpoint main_loop (gpio : bool) (ticks : list tick_env) (s : SystemMonitor)
    : run_result :=
  match ticks with
  | [] => {| final := s; trace := []; status := Looping; iterations := 0 |}
  | t :: rest =>
      let s1 := maybe_auto_advance (current_time t) auto_advance_interval s in
      match canvas_result t with
      | Some KeyboardInterrupt => on_interrupt gpio s1 []
      | Some e =>
          {| final := s1; trace := []; status := Raised e; iterations := 1 |}
      | None =>
          let out := [Display (dispatch (current_screen s1))] in
          if sleep_interrupted t then on_interrupt gpio s1 out
          else
            let (s2, out2) := run_presses (presses t) s1 in
            let r := main_loop gpio rest s2 in
            {| final := final r;
               trace := out ++ [Sleep 1] ++ out2 ++ trace r;
               status := status r;
               iterations := S (iterations r) |}
      end
  end.

(** The font-loading cascade of [run]; [ImageFont.load_default()] needs no
    file and is the last resort. *)
Definition load_fonts (env : startup_env) : list event :=
  if liberation_font env then [LoadFont "LiberationMono-Regular.ttf"]
  else if dejavu_font env then [LoadFont "DejaVuSansMono.ttf"]
  else [LoadFont "default"].

(** [run] from the font loading on, [out] being what start-up wrote. *)
Definition run_displaying (env : startup_env) (out : list event)
    (ticks : list tick_env) (s : SystemMonitor) : run_result :=
  let banner :=
    [Stdout "Starting multi-screen display...";
     Stdout "Buttons: Left/Right = navigate, Up/Down = command menu, Center = execute";
     Stdout "Press Ctrl+C to exit"] in
  let r := main_loop (gpio_available env) ticks s in
  {| final := final r;
     trace := out ++ load_fonts env ++ banner ++ trace r;
     status := status r;
     iterations := iterations r |}.

(** [SystemMonitor.run]. *)
Definition run (env : startup_env) (ticks : list tick_env) (s : SystemMonitor)
    : run_result :=
  match oled_3C env with
  | None =>
      run_displaying env
        [OledInit 0x3C; Stdout "OLED initialized successfully on address 0x3C"]
        ticks s
  | Some e =>
      match oled_3D env with
      | None =>
          run_displaying env
            [OledInit 0x3C; OledInit 0x3D;
             Stdout "OLED initialized successfully on address 0x3D"]
            ticks s
      | Some e2 =>
          {| final := s;
             trace := [OledInit 0x3C; OledInit 0x3D;
                       Stdout ("Error initializing OLED: " ++ e)%string;
                       Stdout ("Also tried 0x3D: " ++ e2)%string];
             status := Returned;
             iterations := 0 |}
      end
  end.

Definition is_oled_init (e : event) : bool :=
  match e with OledInit _ => true | _ => false end.

Definition is_display (e : event) : bool :=
  match e with Display _ => true | _ => false end.

(** A tick during which nothing goes wrong. *)
Definition completes (t : tick_env) : Prop :=
  canvas_result t = None /\ sleep_interrupted t = false.

(** ** Predicates and sample worlds used below *)

(** The two buttons wired to [prev_screen] and [next_screen]. *)
Definition is_screen_button (p : press) : bool :=
  match p with
  | ButtonL _ | ButtonR _ => true
  | _ => false
  end.

(** The object on the command screen with "Restart" selected, last touched
    when the clock read 0. *)
Definition on_restart : SystemMonitor := mkMonitor 3 0 0%Q true.

(** A world in which both frames and the subprocess succeed. *)
Definition all_fine : exec_env := mkExecEnv None None None.

(** The display initialises at one of the two addresses. *)
Definition oled_answers (env : startup_env) : Prop :=
  oled_3C env = None \/ oled_3D env = None.

(** A board with the display at the first address and both font files. *)
Definition display_at_3C : startup_env := mkStartup true None None true true.

(** A tick on which the transfer of the frame fails. *)
Definition i2c_error : tick_env :=
  mkTick 1%Q (Some (Exception "[Errno 121] Remote I/O error")) false [].

(** A tick without incident and without button presses. *)
Definition fine_tick : tick_env := mkTick 2%Q None false [].

(** Every event but an initialisation of the display. *)
Definition not_oled_init (e : event) : bool := negb (is_oled_init e).

(** The addresses [run] tries, in order. *)
Definition oled_attempts (env : startup_env) : list event :=
  match oled_3C env with
  | None => [OledInit 0x3C]
  | Some _ => [OledInit 0x3C; OledInit 0x3D]
  end.

(** A board on which neither address answers. *)
Definition no_display : startup_env :=
  mkStartup true (Some "[Errno 2] No such file or directory"%string)
                 (Some "[Errno 121] Remote I/O error"%string) true true.

(** A board with the display at the second address only. *)
Definition display_at_3D : startup_env :=
  mkStartup false (Some "[Errno 121] Remote I/O error"%string) None false true.

(** ** Stores under interleaving

    The loop and the GPIO thread share the object without a lock, so the
    value an assignment computes from may be stale when it is stored. These
    are the assignments of the source to the navigation attributes, each
    with the value its right-hand side read. *)
Inductive store : Type :=
| StorePrevScreen (seen : Z)    (* line 116 *)
| StoreNextScreen (seen : Z)    (* lines 122 and 313 *)
| StorePrevCommand (seen : Z)   (* line 82 *)
| StoreNextCommand (seen : Z)   (* line 89 *)
| StoreClock (now : Q).         (* lines 83, 90, 117, 123 and 314 *)

Definition write (w : store) (s : SystemMonitor) : SystemMonitor :=
  match w with
  | StorePrevScreen seen =>
      {| current_screen := (seen - 1) mod total_screens;
         selected_command := selected_command s;
         last_button_press := last_button_press s;
         auto_advance := auto_advance s |}
  | StoreNextScreen seen =>
      {| current_screen := (seen + 1) mod total_screens;
         selected_command := selected_command s;
         last_button_press := last_button_press s;
         auto_advance := auto_advance s |}
  | StorePrevCommand seen =>
      {| current_screen := current_screen s;
         selected_command := (seen - 1) mod len commands;
         last_button_press := last_button_press s;
         auto_advance := auto_advance s |}
  | StoreNextCommand seen =>
      {| current_screen := current_screen s;
         selected_command := (seen + 1) mod len commands;
         last_button_press := last_button_press s;
         auto_advance := auto_advance s |}
  | StoreClock now =>
      {| current_screen := current_screen s;
         selected_command := selected_command s;
         last_button_press := now;
         auto_advance := auto_advance s |}
  end.

Definition write_all (ws : list store) (s : SystemMonitor) : SystemMonitor :=
  fold_left (fun s w => write w s) ws s.

(** ** More of Python's [str] *)

(** [s.startswith(p)]. *)
Definition startswith (p s : string) : bool := String.prefix p s.

(** [s[:n]] for a non-negative [n]. *)
Definition take_chars (n : nat) (s : string) : string := substring 0 n s.

(** Drop the leading whitespace of a list of characters. *)
Fixpoint lstrip_chars (l : list ascii) : list ascii :=
  match l with
  | [] => []
  | c :: l' => if is_space c then lstrip_chars l' else l
  end.

(** [s.strip()]. *)
Definition strip (s : string) : string :=
  string_of_list_ascii
    (rev (lstrip_chars (rev (lstrip_chars (list_ascii_of_string s))))).

(** ** [get_ip_address] *)

(** What the network answers: [None] when the call raises. *)
Record net_env : Type := mkNet {
  route_ip : option string;     (* getsockname()[0] of the socket connected to 8.8.8.8 *)
  resolved_ip : option string;  (* gethostbyname(gethostname()) *)
  hostname_I : option string    (* stdout of [hostname -I] *)
}.

(** [SystemMonitor.get_ip_address]; both [except:] clauses catch
    everything, the [IndexError] of [split()[0]] included. *)
Definition get_ip_address (env : net_env) : string :=
  match route_ip env with
  | Some ip => ip
  | None =>
      match resolved_ip env with
      | None => "No IP Found"
      | Some ip =>
          if startswith "127." ip then
            match hostname_I env with
            | None => "No IP Found"
            | Some out =>
                match py_index (split (strip out)) 0 with
                | Some first => first
                | None => "No IP Found"
                end
            end
          else ip
      end
  end.

(** ** Drawing *)

(** [self.font] (11 pt) and [self.small_font] (9 pt). *)
Inductive font : Type := Font11 | Font9.

Inductive colour : Type := White | Black.

(** The calls on the [ImageDraw] object of a canvas. *)
Inductive draw_op : Type :=
| Text (x y : Z) (text : string) (f : font) (fill : colour)
| Rectangle (x0 y0 x1 y1 : Z) (outline fill : option colour).

(** The body of the [for i, (label, cmd) in enumerate(...)] loop of
    [draw_command_screen], from index [i] on. *)
Fixpoint command_rows (i : Z) (cmds : list (string * string)) (sel : Z)
    : list draw_op :=
  match cmds with
  | [] => []
  | (label, _) :: rest =>
      (if i =? sel then
         [Rectangle 0 (14 + i * 12) 127 (26 + i * 12) None (Some White);
          Text 2 (16 + i * 12) ("> " ++ label)%string Font9 Black]
       else
         [Text 2 (16 + i * 12) ("  " ++ label)%string Font9 White])
      ++ command_rows (i + 1) rest sel
  end.

(** [SystemMonitor.draw_command_screen]. *)
Definition draw_command_screen (s : SystemMonitor) : list draw_op :=
  Text 2 2 "Commands (4/4):" Font9 White
  :: command_rows 0 commands (selected_command s).

(** [SystemMonitor.draw_ip_screen]; [hostname] is what
    [socket.gethostname()] returns and [clock] what [time.strftime] does. *)
Definition draw_ip_screen (s : SystemMonitor) (net : net_env)
    (hostname clock : string) : list draw_op :=
  [Text 2 2 "System IP (1/4):" Font9 White;
   Text 2 16 (get_ip_address net) Font11 White;
   Text 2 30 ("Host: " ++ take_chars 16 hostname)%string Font9 White;
   Text 2 42 ("Time: " ++ clock)%string Font9 White;
   Text 2 54 (if auto_advance s then "Auto: ON" else "Auto: OFF")%string
        Font9 White].

(** The highlighted rows of a frame: the texts drawn in black. *)
Definition is_highlight (op : draw_op) : bool :=
  match op with
  | Text _ _ _ _ Black => true
  | _ => false
  end.

(** A drawing call stays inside the 128 x 64 pixels of the display (for a
    text, its anchor does). *)
Definition on_screen (op : draw_op) : Prop :=
  match op with
  | Text x y _ _ _ => 0 <= x <= 127 /\ 0 <= y <= 63
  | Rectangle x0 y0 x1 y1 _ _ =>
      0 <= x0 <= x1 /\ x1 <= 127 /\ 0 <= y0 <= y1 /\ y1 <= 63
  end.

(** ** [setup_buttons] *)

(** The five callbacks a pin can be wired to. *)
Inductive handler : Type :=
| PrevScreen | NextScreen | PrevCommand | NextCommand | ExecuteCommand.

(** The BCM pins of the bonnet, as [__init__] has them. *)
Definition BUTTON_A : Z := 5.
Definition BUTTON_B : Z := 6.
Definition BUTTON_L : Z := 27.
Definition BUTTON_R : Z := 23.
Definition BUTTON_C : Z := 4.

(** The calls [setup_buttons] makes on [RPi.GPIO]. *)
Inductive gpio_call : Type :=
| SetMode
| SetWarnings
| SetupInput (pin : Z)
| AddEventDetect (pin : Z) (h : handler) (bouncetime : Z).

(** The body of the [try] of [setup_buttons], call by call. *)
Definition setup_calls : list gpio_call :=
  [SetMode; SetWarnings;
   SetupInput BUTTON_A; SetupInput BUTTON_B; SetupInput BUTTON_L;
   SetupInput BUTTON_R; SetupInput BUTTON_C;
   AddEventDetect BUTTON_L PrevScreen 300;
   AddEventDetect BUTTON_R NextScreen 300;
   AddEventDetect BUTTON_A PrevCommand 300;
   AddEventDetect BUTTON_B NextCommand 300;
   AddEventDetect BUTTON_C ExecuteCommand 300].

(** Make the calls in order until one raises; [fails c] is the text of the
    exception [c] raises, if it does. Returns the calls that took effect. *)
Fixpoint gpio_do (fails : gpio_call -> option string) (calls : list gpio_call)
    : list gpio_call * option string :=
  match calls with
  | [] => ([], None)
  | c :: rest =>
      match fails c with
      | Some e => ([], Some e)
      | None =>
          let (done, err) := gpio_do fails rest in
          (c :: done, err)
      end
  end.

(** [SystemMonitor.setup_buttons]: the calls that took effect and what was
    printed. *)
Definition setup_buttons (available : bool)
    (fails : gpio_call -> option string) : list gpio_call * list event :=
  if negb available then ([], [])
  else
    match gpio_do fails setup_calls with
    | (done, None) => (done, [Stdout "Button navigation enabled"])
    | (done, Some e) =>
        (done, [Stdout ("Error setting up buttons: " ++ e)%string])
    end.

(** Whether the calls [done] have wired a callback. *)
Definition handler_eqb (a b : handler) : bool :=
  match a, b with
  | PrevScreen, PrevScreen | NextScreen, NextScreen
  | PrevCommand, PrevCommand | NextCommand, NextCommand
  | ExecuteCommand, ExecuteCommand => true
  | _, _ => false
  end.

Definition wires (h : handler) (c : gpio_call) : bool :=
  match c with
  | AddEventDetect _ h' _ => handler_eqb h h'
  | _ => false
  end.

Definition wired (done : list gpio_call) (h : handler) : bool :=
  existsb (wires h) done.

(** ** Measures on sequences of presses, checks and events *)

(** Rights minus Lefts. *)
Fixpoint screen_shift (ps : list press) : Z :=
  match ps with
  | [] => 0
  | ButtonR _ :: ps' => screen_shift ps' + 1
  | ButtonL _ :: ps' => screen_shift ps' - 1
  | _ :: ps' => screen_shift ps'
  end.

(** Downs minus Ups. *)
Fixpoint command_shift (ps : list press) : Z :=
  match ps with
  | [] => 0
  | ButtonB _ :: ps' => command_shift ps' + 1
  | ButtonA _ :: ps' => command_shift ps' - 1
  | _ :: ps' => command_shift ps'
  end.

(** The two buttons wired to [prev_command] and [next_command]. *)
Definition is_command_button (p : press) : bool :=
  match p with
  | ButtonA _ | ButtonB _ => true
  | _ => false
  end.

(** The auto-advance check at each of the clock readings [ts], in order. *)
Definition idle_checks (ts : list Q) (idle_threshold : Q) (s : SystemMonitor)
    : SystemMonitor :=
  fold_left (fun s t => maybe_auto_advance t idle_threshold s) ts s.

(** A frame that shows one of the four screens, or any other event. *)
Definition shows_panel (e : event) : bool :=
  match e with
  | Display None => false
  | _ => true
  end.

Definition is_device_clear (e : event) : bool :=
  match e with DeviceClear => true | _ => false end.

Definition is_gpio_cleanup (e : event) : bool :=
  match e with GpioCleanup => true | _ => false end.

Definition is_subprocess (e : event) : bool :=
  match e with Subprocess _ => true | _ => false end.

(** The events a button callback can produce. *)
Definition from_callback (e : event) : bool :=
  match e with
  | Stdout _ | ShowExecuting _ | ShowError _ | Subprocess _ | Sleep 3 => true
  | _ => false
  end.

(** Ctrl-C arrives during tick [t]. *)
Definition interrupted (t : tick_env) : Prop :=
  canvas_result t = Some KeyboardInterrupt \/
  (canvas_result t = None /\ sleep_interrupted t = true).

(** What the [except KeyboardInterrupt] handler of [run] appends. *)
Definition farewell (gpio : bool) : list event :=
  [Stdout (newline ++ "Exiting...")%string; DeviceClear]
  ++ (if gpio then [GpioCleanup] else []).

(** [run] ended in its [except KeyboardInterrupt] handler. *)
Definition exited (st : run_status) : bool :=
  match st with Exited => true | _ => false end.

(** What [run] writes before the loop when the display answers. *)
Definition preamble (env : startup_env) : list event :=
  (match oled_3C env with
   | None =>
       [OledInit 0x3C; Stdout "OLED initialized successfully on address 0x3C"]
   | Some _ =>
       [OledInit 0x3C; OledInit 0x3D;
        Stdout "OLED initialized successfully on address 0x3D"]
   end)
  ++ load_fonts env
  ++ [Stdout "Starting multi-screen display...";
      Stdout "Buttons: Left/Right = navigate, Up/Down = command menu, Center = execute";
      Stdout "Press Ctrl+C to exit"].

(** The first thing that goes wrong inside the [try] of [execute_command]. *)
Definition first_failure (env : exec_env) : option string :=
  match show_executing env with
  | Some e => Some e
  | None => subprocess_run env
  end.

(** A non-empty string without whitespace. *)
Definition is_token (s : string) : bool :=
  match list_ascii_of_string s with
  | [] => false
  | l => forallb (fun c => negb (is_space c)) l
  end.

(** A string of whitespace only (the empty one included). *)
Definition is_blank (s : string) : bool :=
  forallb is_space (list_ascii_of_string s).

(** ** Temperature and disk telemetry

    Python's floats and their formatting are not modelled: the float type
    and the float operations of the source are parameters. *)

(** How a draw routine ends: normally, or with an exception after the calls
    it had made; [TypeError] is what formatting [None] with [:.1f] raises. *)
Inductive draw_error : Type := TypeError | Failure (msg : string).

Inductive draw_result : Type :=
| Drawn (ops : list draw_op)
| DrawRaises (ops : list draw_op) (what : draw_error).

(** The degree sign of the temperature lines, in UTF-8. *)
Definition degree : string :=
  String (ascii_of_nat 194) (String (ascii_of_nat 176) EmptyString).

Section Telemetry.

Variable float : Type.
Variable milli : float -> float.          (* x / 1000.0 *)
Variable fahrenheit : float -> float.     (* (c * 9/5) + 32 *)
Variable gib : Z -> float.                (* n / (1024**3) *)
Variable percent_of : Z -> Z -> float.    (* (used / total) * 100, total <> 0 *)
Variable too_large : Z -> Z -> bool.      (* a / b raises OverflowError *)
Variable bar_pixels : float -> Z + string.
                                          (* int((percent / 100) * 120), or the
                                             text of the exception it raises
                                             on an infinite or NaN percent *)
Variable fmt1 : float -> string.          (* f"{x:.1f}" *)
Variable fmt2 : float -> string.          (* f"{x:.2f}" *)
Variable fzero : float.                   (* 0.0 *)

(** What the sensors answer. *)
Record temp_env : Type := mkTemp {
  zone0 : option float;   (* float(read(thermal_zone0)); [None]: it raises *)
  zone1 : option float;   (* float(read(thermal_zone1)) *)
  sensors : option (list (string * list float))
                          (* psutil.sensors_temperatures(), [.current] of
                             each entry; [None]: it raises *)
}.

(** The [for name, entries in temps.items()] loop. *)
Fixpoint first_reading (temps : list (string * list float)) : option float :=
  match temps with
  | [] => None
  | (_, []) :: rest => first_reading rest
  | (_, current :: _) :: _ => Some current
  end.

(** [SystemMonitor.get_cpu_temperature]. *)
Definition get_cpu_temperature (env : temp_env)
    : option float * option float :=
  match zone0 env with
  | Some raw => (Some (milli raw), Some (fahrenheit (milli raw)))
  | None =>
      match zone1 env with
      | Some raw => (Some (milli raw), Some (fahrenheit (milli raw)))
      | None =>
          match sensors env with
          | None => (None, None)
          | Some temps =>
              match first_reading temps with
              | Some temp_c => (Some temp_c, Some (fahrenheit temp_c))
              | None => (None, None)
              end
          end
      end
  end.

(** [SystemMonitor.get_disk_usage]; [usage] is the total, used and free
    bytes that [psutil.disk_usage('/')] reports, [None] when it raises. A
    total of 0 raises [ZeroDivisionError] and a quotient too large for a
    float raises [OverflowError]; the bare [except] turns either into four
    [None]s. *)
Definition get_disk_usage (usage : option (Z * Z * Z))
    : option float * option float * option float * option float :=
  match usage with
  | None => (None, None, None, None)
  | Some (total, used, free) =>
      if too_large total (1024 ^ 3) || too_large used (1024 ^ 3)
         || too_large free (1024 ^ 3) || (total =? 0) || too_large used total
      then (None, None, None, None)
      else (Some (gib total), Some (gib used), Some (gib free),
            Some (percent_of used total))
  end.

(** [SystemMonitor.draw_cpu_screen] on what [get_cpu_temperature]
    returned; [cpu_percent] is what [psutil.cpu_percent] returns or the
    text of the exception it raises (no handler surrounds the call), and
    [load_avg] is [None] when [psutil.getloadavg] raises. *)
Definition draw_cpu_screen (temp : option float * option float)
    (cpu_percent : float + string) (load_avg : option float)
    : draw_result :=
  match cpu_percent with
  | inr e => DrawRaises [] (Failure e)
  | inl usage =>
      let load_1min := match load_avg with
                       | Some l => l
                       | None => fzero
                       end in
      let title := Text 2 2 "CPU Info (2/4):" Font9 White in
      let tail :=
        [Text 2 42 ("Usage: " ++ fmt1 usage ++ "%")%string Font9 White;
         Text 2 54 ("Load: " ++ fmt2 load_1min)%string Font9 White] in
      match temp with
      | (None, _) =>
          Drawn (title :: Text 2 16 "Temp: N/A" Font11 White :: tail)
      | (Some temp_c, None) =>
          DrawRaises
            [title;
             Text 2 16 ("Temp: " ++ fmt1 temp_c ++ degree ++ "C")%string
                  Font11 White]
            TypeError
      | (Some temp_c, Some temp_f) =>
          Drawn
            (title
             :: Text 2 16 ("Temp: " ++ fmt1 temp_c ++ degree ++ "C")%string
                     Font11 White
             :: Text 2 28 ("      " ++ fmt1 temp_f ++ degree ++ "F")%string
                     Font11 White
             :: tail)
      end
  end.

(** [SystemMonitor.draw_disk_screen] on what [get_disk_usage] returned.
    No handler surrounds [int(...)]: when it raises, the texts and the frame
    of the bar have been drawn. *)
Definition draw_disk_screen
    (usage : option float * option float * option float * option float)
    : draw_result :=
  let '(total_gb, used_gb, free_gb, percent) := usage in
  let title := Text 2 2 "Disk Usage (3/4):" Font9 White in
  match total_gb with
  | None => Drawn [title; Text 2 16 "Disk info N/A" Font11 White]
  | Some total =>
      let l1 := Text 2 16 ("Total: " ++ fmt1 total ++ " GB")%string
                     Font9 White in
      match used_gb with
      | None => DrawRaises [title; l1] TypeError
      | Some used =>
          let l2 := Text 2 28 ("Used:  " ++ fmt1 used ++ " GB")%string
                         Font9 White in
          match free_gb with
          | None => DrawRaises [title; l1; l2] TypeError
          | Some free =>
              let l3 := Text 2 40 ("Free:  " ++ fmt1 free ++ " GB")%string
                             Font9 White in
              match percent with
              | None => DrawRaises [title; l1; l2; l3] TypeError
              | Some p =>
                  let drawn :=
                    [title; l1; l2; l3;
                     Text 2 52 ("Usage: " ++ fmt1 p ++ "%")%string
                          Font9 White;
                     Rectangle 4 58 (4 + 120) (58 + 4) (Some White) None] in
                  match bar_pixels p with
                  | inr e => DrawRaises drawn (Failure e)
                  | inl used_width =>
                      Drawn
                        (drawn
                         ++ (if 0 <? used_width then
                               [Rectangle 4 58 (4 + used_width) (58 + 4)
                                  (Some White) (Some White)]
                             else []))
                  end
              end
          end
      end
  end.

(** The six drawing calls of the disk screen that precede the filled bar. *)
Definition disk_lines (total used free : Z) : list draw_op :=
  [Text 2 2 "Disk Usage (3/4):" Font9 White;
   Text 2 16 ("Total: " ++ fmt1 (gib total) ++ " GB")%string Font9 White;
   Text 2 28 ("Used:  " ++ fmt1 (gib used) ++ " GB")%string Font9 White;
   Text 2 40 ("Free:  " ++ fmt1 (gib free) ++ " GB")%string Font9 White;
   Text 2 52 ("Usage: " ++ fmt1 (percent_of used total) ++ "%")%string
        Font9 White;
   Rectangle 4 58 124 62 (Some White) None].

End Telemetry.

(** ** The idle guard in floating point

    The clock readings of the program are binary64 floats; each is an exact
    rational, but [current_time - self.last_button_press] is rounded. Here the
    float expression of line 312,
    [current_time - self.last_button_press > self.auto_advance_interval],
    is the parameter [exceeds], applied to the clock reading, the time of the
    last press and the threshold. *)
Definition maybe_auto_advance_by (exceeds : Q -> Q -> Q -> bool)
    (current_time idle_threshold : Q) (s : SystemMonitor) : SystemMonitor :=
  if auto_advance s
     && negb (current_screen s =? 3)
     && exceeds current_time (last_button_press s) idle_threshold
  then {| current_screen := (current_screen s + 1) mod total_screens;
          selected_command := selected_command s;
          last_button_press := current_time;
          auto_advance := auto_advance s |}
  else s.

(** An [exceeds] other than the exact comparison: a difference that exceeds
    the threshold by no more than 1/1000 does not count. *)
Definition coarse_exceeds (now last thr : Q) : bool :=
  Qgtb (now - last) (thr + (1 # 1000)).

(** A string of ASCII characters only. Strings are byte strings here, and
    on ASCII text Python's [str] operations by code point ([s[:n]],
    [strip], [split]) coincide with the byte-wise ones of this file. *)
Definition is_ascii (s : string) : bool :=
  forallb (fun c => (nat_of_ascii c <? 128)%nat) (list_ascii_of_string s).

(** * Properties *)

(** ** Sanity checks of the helpers *)

Example split_reboot : split "sudo reboot" = ["sudo"; "reboot"]%string.
Proof. reflexivity. Qed.

Example split_shutdown :
  split "sudo shutdown -h now" = ["sudo"; "shutdown"; "-h"; "now"]%string.
Proof. reflexivity. Qed.

Example py_index_last : py_index commands (-1) = nth_error commands 1.
Proof. reflexivity. Qed.

Example py_index_out : py_index commands 2 = None.
Proof. reflexivity. Qed.

(** ** Basic facts *)

Lemma len_commands : len commands = 2.
Proof. reflexivity. Qed.

Lemma screen_mod_range (x : Z) : 0 <= x mod total_screens < total_screens.
Proof. apply Z.mod_pos_bound. reflexivity. Qed.

Lemma command_mod_range (x : Z) : 0 <= x mod len commands < len commands.
Proof. apply Z.mod_pos_bound. reflexivity. Qed.

Lemma screen_step_moves (x : Z) : (x + 1) mod total_screens <> x.
Proof.
  unfold total_screens. intros H.
  pose proof (Z.mod_pos_bound (x + 1) 4 ltac:(lia)) as B.
  pose proof (Z.div_mod (x + 1) 4 ltac:(lia)) as D.
  lia.
Qed.

Lemma Qgtb_true (a b : Q) : Qgtb a b = true <-> (b < a)%Q.
Proof.
  unfold Qgtb. rewrite negb_true_iff, <- not_true_iff_false, Qle_bool_iff.
  split.
  - apply Qnot_le_lt.
  - apply Qlt_not_le.
Qed.

Lemma py_index_in_range {A : Type} (l : list A) (i : Z) :
  0 <= i < len l -> exists a, py_index l i = Some a.
Proof.
  unfold py_index, len. intros [Hlo Hhi].
  apply Z.leb_le in Hlo. pose proof Hhi as Hlt. apply Z.ltb_lt in Hlt.
  rewrite Hlo, Hlt. cbn [andb].
  destruct (nth_error l (Z.to_nat i)) eqn:E; [eauto|].
  apply nth_error_None in E. lia.
Qed.

(** Printing never touches the object. *)
Lemma after_print_selected (s : SystemMonitor) : after (print_selected s) = s.
Proof.
  unfold print_selected.
  destruct (py_index commands (selected_command s)) as [[label cmd]|]; reflexivity.
Qed.

Lemma after_print_switched (s : SystemMonitor) : after (print_switched s) = s.
Proof. reflexivity. Qed.

Lemma after_execute_handler env s out e : after (execute_handler env s out e) = s.
Proof. unfold execute_handler. destruct (show_error env); reflexivity. Qed.

(** [execute_command] writes no attribute of the object, whatever happens
    to the frames and to the subprocess. *)
Lemma after_execute_command env s : after (execute_command env s) = s.
Proof.
  unfold execute_command.
  destruct (current_screen s =? 3); [|reflexivity].
  destruct (py_index commands (selected_command s)) as [[label cmd]|];
    [|reflexivity].
  destruct (show_executing env); [apply after_execute_handler|].
  destruct (subprocess_run env); [apply after_execute_handler|reflexivity].
Qed.

(** The object after each of the four navigation callbacks. *)
Lemma after_next_screen now s :
  after (next_screen now s) =
  {| current_screen := (current_screen s + 1) mod total_screens;
     selected_command := selected_command s;
     last_button_press := now;
     auto_advance := auto_advance s |}.
Proof. reflexivity. Qed.

Lemma after_prev_screen now s :
  after (prev_screen now s) =
  {| current_screen := (current_screen s - 1) mod total_screens;
     selected_command := selected_command s;
     last_button_press := now;
     auto_advance := auto_advance s |}.
Proof. reflexivity. Qed.

Lemma after_next_command now s :
  after (next_command now s) =
  if current_screen s =? 3 then
    {| current_screen := current_screen s;
       selected_command := (selected_command s + 1) mod len commands;
       last_button_press := now;
       auto_advance := auto_advance s |}
  else s.
Proof.
  unfold next_command. destruct (current_screen s =? 3); [|reflexivity].
  apply after_print_selected.
Qed.

Lemma after_prev_command now s :
  after (prev_command now s) =
  if current_screen s =? 3 then
    {| current_screen := current_screen s;
       selected_command := (selected_command s - 1) mod len commands;
       last_button_press := now;
       auto_advance := auto_advance s |}
  else s.
Proof.
  unfold prev_command. destruct (current_screen s =? 3); [|reflexivity].
  apply after_print_selected.
Qed.

(** The selection callbacks never raise: the index they print with has just
    been reduced modulo the length of the list. *)
Lemma next_command_returns now s : raised (next_command now s) = None.
Proof.
  unfold next_command. destruct (current_screen s =? 3); [|reflexivity].
  unfold print_selected. cbn [selected_command].
  destruct (py_index_in_range commands _
              (command_mod_range (selected_command s + 1))) as [[l c] ->].
  reflexivity.
Qed.

Lemma prev_command_returns now s : raised (prev_command now s) = None.
Proof.
  unfold prev_command. destruct (current_screen s =? 3); [|reflexivity].
  unfold print_selected. cbn [selected_command].
  destruct (py_index_in_range commands _
              (command_mod_range (selected_command s - 1))) as [[l c] ->].
  reflexivity.
Qed.

(** One step of the state machine, attribute by attribute. *)
Ltac callback_cases p :=
  destruct p as [now|now|now|now|env]; cbn [callback];
  rewrite ?after_prev_screen, ?after_next_screen, ?after_prev_command,
          ?after_next_command, ?after_execute_command.

Lemma maybe_auto_advance_cases now thr s :
  maybe_auto_advance now thr s = s \/
  maybe_auto_advance now thr s =
  {| current_screen := (current_screen s + 1) mod total_screens;
     selected_command := selected_command s;
     last_button_press := now;
     auto_advance := auto_advance s |}.
Proof.
  unfold maybe_auto_advance.
  destruct (auto_advance s && negb (current_screen s =? 3)
            && Qgtb (now - last_button_press s) thr); auto.
Qed.

Lemma mutate_auto_advance m s : auto_advance (mutate m s) = auto_advance s.
Proof.
  destruct m as [p|now thr]; cbn [mutate].
  - callback_cases p; try reflexivity;
      destruct (current_screen s =? 3); reflexivity.
  - destruct (maybe_auto_advance_cases now thr s) as [-> | ->]; reflexivity.
Qed.

Lemma mutate_in_range m s : in_range s -> in_range (mutate m s).
Proof.
  unfold in_range. intros [Hs Hc].
  destruct m as [p|now thr]; cbn [mutate].
  - callback_cases p; try destruct (current_screen s =? 3);
      cbn [current_screen selected_command];
      auto using screen_mod_range, command_mod_range.
  - destruct (maybe_auto_advance_cases now thr s) as [-> | ->];
      cbn [current_screen selected_command];
      auto using screen_mod_range, command_mod_range.
Qed.

Lemma init_in_range t0 : in_range (init t0).
Proof. unfold in_range, init, total_screens; cbn. lia. Qed.

Lemma reachable_in_range s0 s :
  in_range s0 -> reachable_from s0 s -> in_range s.
Proof.
  intros H0 R. induction R as [|s m R IH]; [assumption|].
  apply mutate_in_range, IH.
Qed.

Lemma mutate_all_reachable ms s0 : reachable_from s0 (mutate_all ms s0).
Proof.
  unfold mutate_all.
  induction ms as [|m ms IH] using rev_ind; cbn.
  - constructor.
  - rewrite fold_left_app. cbn. constructor. exact IH.
Qed.

Lemma reachable_mutate_all s0 s :
  reachable_from s0 s -> exists ms, s = mutate_all ms s0.
Proof.
  induction 1 as [|s m R [ms ->]].
  - exists []. reflexivity.
  - exists (ms ++ [m]). unfold mutate_all. rewrite fold_left_app. reflexivity.
Qed.

(** ** Stale stores *)

(** Whatever value an assignment read, what it stores is in range. *)
Lemma write_in_range w s : in_range s -> in_range (write w s).
Proof.
  unfold in_range. intros [Hs Hc].
  destruct w; cbn [write current_screen selected_command];
    auto using screen_mod_range, command_mod_range.
Qed.

Lemma write_all_in_range ws s : in_range s -> in_range (write_all ws s).
Proof.
  unfold write_all. revert s.
  induction ws as [|w ws IH]; intros s H; cbn [fold_left]; [exact H|].
  apply IH, write_in_range, H.
Qed.

(** Every mutation is a sequence of such stores (with fresh reads). *)
Lemma mutate_as_stores m s : exists ws, mutate m s = write_all ws s.
Proof.
  destruct m as [p|now thr]; cbn [mutate].
  - callback_cases p.
    + exists [StorePrevScreen (current_screen s); StoreClock now]. reflexivity.
    + exists [StoreNextScreen (current_screen s); StoreClock now]. reflexivity.
    + destruct (current_screen s =? 3).
      * exists [StorePrevCommand (selected_command s); StoreClock now].
        reflexivity.
      * exists []. reflexivity.
    + destruct (current_screen s =? 3).
      * exists [StoreNextCommand (selected_command s); StoreClock now].
        reflexivity.
      * exists []. reflexivity.
    + exists []. reflexivity.
  - destruct (maybe_auto_advance_cases now thr s) as [-> | ->].
    + exists []. reflexivity.
    + exists [StoreNextScreen (current_screen s); StoreClock now]. reflexivity.
Qed.

(** ** Range invariant *)

(** C1. From the initial object (screen 0, command 0), after any sequence
    of mutations (the four navigation callbacks, [execute_command] and the
    auto-advance check, in any order and at any clock readings) and at every
    point of that sequence, [current_screen] is one of 0..3 and
    [selected_command] lies in [0, len(commands)). The same holds when the
    two threads interleave inside the callbacks, so that an assignment
    stores a value computed from a stale read. *)
Theorem indices_stay_in_range :
  (forall (t0 : Q) (ms : list mutation) (k : nat),
      let s := mutate_all (firstn k ms) (init t0) in
      (0 <= current_screen s <= 3 /\
       exists p, dispatch (current_screen s) = Some p) /\
      0 <= selected_command s < len commands) /\
  (forall (t0 : Q) (ws : list store),
      let s := write_all ws (init t0) in
      0 <= current_screen s <= 3 /\ 0 <= selected_command s < len commands).
Proof.
  split; cycle 1.
  { intros t0 ws s.
    destruct (write_all_in_range ws (init t0) (init_in_range t0)) as [Hs Hc].
    fold s in Hs, Hc. unfold total_screens in Hs. split; [lia | exact Hc]. }
  intros t0 ms k s.
  assert (R : in_range s).
  { apply (reachable_in_range (init t0)).
    - apply init_in_range.
    - apply mutate_all_reachable. }
  destruct R as [Hs Hc]. unfold total_screens in Hs.
  repeat split; try lia.
  unfold dispatch.
  destruct (current_screen s =? 0) eqn:E0; [eauto|].
  destruct (current_screen s =? 1) eqn:E1; [eauto|].
  destruct (current_screen s =? 2) eqn:E2; [eauto|].
  destruct (current_screen s =? 3) eqn:E3; [eauto|].
  lia.
Qed.

(** ** Screen navigation *)

Lemma run_presses_reachable ps s : reachable_from s (fst (run_presses ps s)).
Proof.
  assert (G : forall s0, reachable_from s0 s ->
                         reachable_from s0 (fst (run_presses ps s))).
  { revert s. induction ps as [|p ps IH]; intros s s0 R; cbn.
    - exact R.
    - specialize (IH (after (callback p s)) s0 (reach_step s0 s (Pressed p) R)).
      destruct (run_presses ps (after (callback p s))). exact IH. }
  apply G. constructor.
Qed.

(** C2. [next_screen] and [prev_screen] always leave [current_screen] in
    0..3, so does every sequence of them; [next_screen] on screen 3 gives
    screen 0 and [prev_screen] on screen 0 gives screen 3; inside the range
    they step by exactly one; and three [next_screen] from the initial
    object show CpuHealth, DiskUsage, then Commands. *)
Theorem screen_navigation_cycles :
  (forall now s,
      0 <= current_screen (after (next_screen now s)) <= 3 /\
      0 <= current_screen (after (prev_screen now s)) <= 3) /\
  (forall t0 ps,
      forallb is_screen_button ps = true ->
      0 <= current_screen (fst (run_presses ps (init t0))) <= 3) /\
  (forall now s,
      current_screen s = 3 -> current_screen (after (next_screen now s)) = 0) /\
  (forall now s,
      current_screen s = 0 -> current_screen (after (prev_screen now s)) = 3) /\
  (forall now s,
      0 <= current_screen s < 3 ->
      current_screen (after (next_screen now s)) = current_screen s + 1) /\
  (forall now s,
      0 < current_screen s <= 3 ->
      current_screen (after (prev_screen now s)) = current_screen s - 1) /\
  (forall t0 t1 t2 t3,
      let s1 := after (next_screen t1 (init t0)) in
      let s2 := after (next_screen t2 s1) in
      let s3 := after (next_screen t3 s2) in
      dispatch (current_screen (init t0)) = Some Address /\
      dispatch (current_screen s1) = Some CpuHealth /\
      dispatch (current_screen s2) = Some DiskUsage /\
      dispatch (current_screen s3) = Some Commands /\
      current_screen s3 = 3).
Proof.
  repeat apply conj.
  - intros now s. rewrite after_next_screen, after_prev_screen.
    cbn [current_screen].
    pose proof (screen_mod_range (current_screen s + 1)).
    pose proof (screen_mod_range (current_screen s - 1)).
    unfold total_screens in *. lia.
  - intros t0 ps _.
    pose proof (reachable_in_range (init t0) _ (init_in_range t0)
                  (run_presses_reachable ps (init t0))) as [H _].
    unfold total_screens in H. lia.
  - intros now s H. rewrite after_next_screen. cbn [current_screen].
    rewrite H. reflexivity.
  - intros now s H. rewrite after_prev_screen. cbn [current_screen].
    rewrite H. reflexivity.
  - intros now s H. rewrite after_next_screen. cbn [current_screen].
    unfold total_screens. apply Z.mod_small. lia.
  - intros now s H. rewrite after_prev_screen. cbn [current_screen].
    unfold total_screens. apply Z.mod_small. lia.
  - intros. repeat split; reflexivity.
Qed.

Lemma screen_navigation_cycles_witness :
  forallb is_screen_button [ButtonR 1%Q; ButtonR 2%Q; ButtonR 3%Q; ButtonR 4%Q;
                            ButtonL 5%Q] = true /\
  0 <= current_screen
         (fst (run_presses [ButtonR 1%Q; ButtonR 2%Q; ButtonR 3%Q; ButtonR 4%Q;
                            ButtonL 5%Q] (init 0%Q))) <= 3 /\
  current_screen (after (next_screen 7%Q (mkMonitor 3 1 0%Q true))) = 0 /\
  current_screen (after (prev_screen 7%Q (mkMonitor 0 1 0%Q true))) = 3 /\
  current_screen (after (next_screen 7%Q (mkMonitor 1 0 0%Q true))) = 1 + 1 /\
  current_screen (after (prev_screen 7%Q (mkMonitor 2 0 0%Q true))) = 2 - 1.
Proof.
  destruct screen_navigation_cycles as (_ & Hseq & Hwrap & Hback & Hup & Hdown & _).
  split; [reflexivity|].
  split; [apply (Hseq 0%Q); reflexivity|].
  split; [apply (Hwrap 7%Q (mkMonitor 3 1 0%Q true)); reflexivity|].
  split; [apply (Hback 7%Q (mkMonitor 0 1 0%Q true)); reflexivity|].
  split; [apply (Hup 7%Q (mkMonitor 1 0 0%Q true)); cbn; lia|].
  apply (Hdown 7%Q (mkMonitor 2 0 0%Q true)); cbn; lia.
Defined.

(** ** Command selection *)

(** C3. Off the command screen [next_command] and [prev_command] do
    nothing at all (same object, nothing printed, nothing raised); on the
    command screen they move [selected_command] by +1 / -1 modulo
    [len(commands)], which is 2, store the clock reading in
    [last_button_press] and leave the other attributes alone; three
    [next_command] from command 0 select 1, 0, 1. *)
Theorem command_selection :
  (forall now s,
      current_screen s <> 3 ->
      next_command now s = returns s [] /\ prev_command now s = returns s []) /\
  (forall now s,
      current_screen s = 3 ->
      after (next_command now s) =
        {| current_screen := 3;
           selected_command := (selected_command s + 1) mod 2;
           last_button_press := now;
           auto_advance := auto_advance s |} /\
      after (prev_command now s) =
        {| current_screen := 3;
           selected_command := (selected_command s - 1) mod 2;
           last_button_press := now;
           auto_advance := auto_advance s |} /\
      raised (next_command now s) = None /\
      raised (prev_command now s) = None) /\
  len commands = 2 /\
  (forall now s t1 t2 t3,
      current_screen s = 3 -> selected_command s = 0 ->
      let s1 := after (next_command t1 s) in
      let s2 := after (next_command t2 s1) in
      let s3 := after (next_command t3 s2) in
      selected_command s1 = 1 /\ selected_command s2 = 0 /\
      selected_command s3 = 1 /\
      selected_command (after (prev_command now s)) = 1).
Proof.
  repeat apply conj.
  - intros now s H. apply Z.eqb_neq in H.
    unfold next_command, prev_command. rewrite H. split; reflexivity.
  - intros now s H.
    rewrite after_next_command, after_prev_command, len_commands.
    rewrite H. cbn [Z.eqb Pos.eqb].
    repeat split; auto using next_command_returns, prev_command_returns.
  - reflexivity.
  - intros now s t1 t2 t3 Hs Hc. cbn zeta.
    rewrite !after_next_command, after_prev_command. rewrite Hs.
    cbn [Z.eqb Pos.eqb current_screen selected_command]. rewrite Hc.
    repeat split; reflexivity.
Qed.

Lemma command_selection_witness :
  (next_command 5%Q (mkMonitor 1 0 0%Q true) = returns (mkMonitor 1 0 0%Q true) []
   /\ prev_command 5%Q (mkMonitor 1 0 0%Q true)
      = returns (mkMonitor 1 0 0%Q true) []) /\
  after (next_command 5%Q (mkMonitor 3 1 0%Q true)) = mkMonitor 3 ((1 + 1) mod 2) 5%Q true /\
  selected_command
    (after (next_command 3%Q
       (after (next_command 2%Q
          (after (next_command 1%Q (mkMonitor 3 0 0%Q true))))))) = 1.
Proof.
  destruct command_selection as (Hoff & Hon & _ & Hscen).
  split; [apply (Hoff 5%Q (mkMonitor 1 0 0%Q true)); cbn; lia|].
  split; [apply (Hon 5%Q (mkMonitor 3 1 0%Q true)); reflexivity|].
  apply (Hscen 0%Q (mkMonitor 3 0 0%Q true) 1%Q 2%Q 3%Q); reflexivity.
Defined.

(** ** Idle auto-advance *)

Lemma auto_advance_condition now thr s :
  auto_advance s && negb (current_screen s =? 3)
    && Qgtb (now - last_button_press s) thr = true
  <-> auto_advance s = true /\ current_screen s <> 3 /\
      (thr < now - last_button_press s)%Q.
Proof.
  rewrite !andb_true_iff, negb_true_iff, Z.eqb_neq, Qgtb_true. tauto.
Qed.

(** A tick on which nothing goes wrong and no button is pressed changes the
    object by the auto-advance check and by nothing else. *)
Lemma quiet_tick_final gpio t s :
  completes t -> presses t = [] ->
  final (main_loop gpio [t] s)
  = maybe_auto_advance (current_time t) auto_advance_interval s.
Proof.
  intros [Hc Hs] Hp. cbn. rewrite Hc, Hs, Hp. reflexivity.
Qed.

(** Whatever happens to its frame, a tick without button presses leaves the
    screen where it was or one step further. *)
Lemma tick_moves_at_most_one_step gpio t s :
  presses t = [] ->
  current_screen (final (main_loop gpio [t] s)) = current_screen s \/
  current_screen (final (main_loop gpio [t] s))
  = (current_screen s + 1) mod total_screens.
Proof.
  intros Hp. cbn [main_loop].
  assert (H : current_screen
                (maybe_auto_advance (current_time t) auto_advance_interval s)
              = current_screen s \/
              current_screen
                (maybe_auto_advance (current_time t) auto_advance_interval s)
              = (current_screen s + 1) mod total_screens).
  { destruct (maybe_auto_advance_cases (current_time t)
                auto_advance_interval s) as [-> | ->]; auto. }
  destruct (canvas_result t) as [[| |msg]|]; try exact H.
  destruct (sleep_interrupted t); [exact H|].
  rewrite Hp. exact H.
Qed.



(** The whole loop leaves an object on the command screen alone as long as
    no button is pressed. *)
Lemma command_screen_is_sticky gpio ticks s :
  current_screen s = 3 ->
  Forall (fun t => presses t = []) ticks ->
  final (main_loop gpio ticks s) = s.
Proof.
  intros Hs Hq. revert s Hs.
  induction Hq as [|t rest Hp _ IH]; intros s Hs; [reflexivity|].
  cbn [main_loop].
  assert (E : maybe_auto_advance (current_time t) auto_advance_interval s = s).
  { unfold maybe_auto_advance. rewrite Hs. cbn [Z.eqb Pos.eqb negb].
    rewrite andb_false_r. reflexivity. }
  rewrite E.
  destruct (canvas_result t) as [[| |msg]|]; try reflexivity.
  destruct (sleep_interrupted t); [reflexivity|].
  rewrite Hp. cbn [run_presses final]. apply IH, Hs.
Qed.

(** C5. On the command screen the auto-advance check changes nothing,
    whatever the clock reading, the time of the last button press and the
    threshold; and the loop, run for any number of ticks without a button
    press, stays on the command screen. *)
Theorem no_auto_advance_on_command_screen :
  forall (s : SystemMonitor),
    current_screen s = 3 ->
    (forall now thr,
        maybe_auto_advance now thr s = s /\
        current_screen (maybe_auto_advance now thr s) = 3) /\
    (forall gpio ticks,
        Forall (fun t => presses t = []) ticks ->
        current_screen (final (main_loop gpio ticks s)) = 3).
Proof.
  intros s Hs. split.
  - intros now thr.
    assert (E : maybe_auto_advance now thr s = s).
    { unfold maybe_auto_advance. rewrite Hs. cbn [Z.eqb Pos.eqb negb].
      rewrite andb_false_r. reflexivity. }
    rewrite E. auto.
  - intros gpio ticks Hq.
    rewrite (command_screen_is_sticky gpio ticks s Hs Hq). exact Hs.
Qed.

Lemma no_auto_advance_on_command_screen_witness :
  maybe_auto_advance 1000000%Q 10%Q (mkMonitor 3 1 0%Q true)
    = mkMonitor 3 1 0%Q true /\
  current_screen
    (final (main_loop true
              [mkTick 100%Q None false []; mkTick 200%Q None false []]
              (mkMonitor 3 1 0%Q true))) = 3.
Proof.
  destruct (no_auto_advance_on_command_screen (mkMonitor 3 1 0%Q true)
              eq_refl) as [Hcheck Hloop].
  split.
  - apply Hcheck.
  - apply Hloop. repeat constructor.
Defined.

(** ** What screen navigation leaves alone *)

Lemma screen_buttons_frame ps s :
  forallb is_screen_button ps = true ->
  selected_command (fst (run_presses ps s)) = selected_command s /\
  auto_advance (fst (run_presses ps s)) = auto_advance s.
Proof.
  revert s. induction ps as [|p ps IH]; intros s H; [split; reflexivity|].
  cbn [forallb] in H. apply andb_true_iff in H as [Hp Hps].
  cbn [run_presses].
  specialize (IH (after (callback p s)) Hps).
  destruct (run_presses ps (after (callback p s))) as [s' out].
  cbn [fst] in *.
  destruct p; try discriminate Hp; cbn [callback] in IH;
    rewrite ?after_prev_screen, ?after_next_screen in IH; exact IH.
Qed.

(** C9. [next_screen] and [prev_screen] write [current_screen] and
    [last_button_press] only: [selected_command] and [auto_advance] keep
    their values, also over any sequence of the two, so the command that was
    selected is still selected when the command screen comes back. *)
Theorem screen_navigation_frame :
  (forall now s,
      selected_command (after (next_screen now s)) = selected_command s /\
      auto_advance (after (next_screen now s)) = auto_advance s /\
      selected_command (after (prev_screen now s)) = selected_command s /\
      auto_advance (after (prev_screen now s)) = auto_advance s) /\
  (forall ps s,
      forallb is_screen_button ps = true ->
      selected_command (fst (run_presses ps s)) = selected_command s /\
      auto_advance (fst (run_presses ps s)) = auto_advance s).
Proof.
  split.
  - intros now s. repeat split; reflexivity.
  - apply screen_buttons_frame.
Qed.

Lemma screen_navigation_frame_witness :
  let s := mkMonitor 3 1 0%Q true in
  let ps := [ButtonR 1%Q; ButtonR 2%Q; ButtonL 3%Q; ButtonL 4%Q] in
  current_screen (fst (run_presses ps s)) = 3 /\
  selected_command (fst (run_presses ps s)) = 1 /\
  auto_advance (fst (run_presses ps s)) = true.
Proof.
  intros s ps. split; [reflexivity|].
  apply (proj2 screen_navigation_frame ps s). reflexivity.
Defined.

(** ** The auto-advance switch *)

Lemma run_presses_auto_advance ps s :
  auto_advance (fst (run_presses ps s)) = auto_advance s.
Proof.
  pose proof (run_presses_reachable ps s) as R.
  induction R as [|s' m R IH]; [reflexivity|].
  rewrite mutate_auto_advance. exact IH.
Qed.

Lemma main_loop_reachable gpio ticks s :
  reachable_from s (final (main_loop gpio ticks s)).
Proof.
  assert (G : forall s0, reachable_from s0 s ->
                         reachable_from s0 (final (main_loop gpio ticks s))).
  { revert s. induction ticks as [|t rest IH]; intros s s0 R; [exact R|].
    cbn [main_loop].
    set (s1 := maybe_auto_advance (current_time t) auto_advance_interval s).
    assert (R1 : reachable_from s0 s1).
    { exact (reach_step s0 s (Idle (current_time t) auto_advance_interval) R). }
    destruct (canvas_result t) as [[| |msg]|]; try exact R1.
    destruct (sleep_interrupted t); [exact R1|].
    assert (R2 : reachable_from s0 (fst (run_presses (presses t) s1))).
    { clear IH. pose proof (run_presses_reachable (presses t) s1) as R2.
      induction R2 as [|s' m R2 IH2]; [exact R1|].
      constructor. exact IH2. }
    destruct (run_presses (presses t) s1) as [s2 out2]. cbn [fst] in R2.
    cbn [final]. apply IH, R2. }
  apply G. constructor.
Qed.

Lemma run_final_reachable env ticks s :
  reachable_from s (final (run env ticks s)).
Proof.
  unfold run, run_displaying.
  destruct (oled_3C env); [destruct (oled_3D env)|]; cbn [final];
    try apply main_loop_reachable.
  constructor.
Qed.

Lemma reachable_auto_advance s0 s :
  reachable_from s0 s -> auto_advance s = auto_advance s0.
Proof.
  induction 1 as [|s m R IH]; [reflexivity|].
  rewrite mutate_auto_advance. exact IH.
Qed.

(** C10. [__init__] sets [auto_advance] to [True]; no button callback, no
    auto-advance check and no run of the loop changes it; so it is [True]
    in every object reachable from the initial one. *)
Theorem auto_advance_never_changes :
  (forall t0, auto_advance (init t0) = true) /\
  (forall p s, auto_advance (after (callback p s)) = auto_advance s) /\
  (forall now thr s,
      auto_advance (maybe_auto_advance now thr s) = auto_advance s) /\
  (forall env ticks s,
      auto_advance (final (run env ticks s)) = auto_advance s) /\
  (forall t0 s, reachable_from (init t0) s -> auto_advance s = true) /\
  (forall t0 env ticks, auto_advance (final (run env ticks (init t0))) = true).
Proof.
  repeat apply conj.
  - reflexivity.
  - intros p s. exact (mutate_auto_advance (Pressed p) s).
  - intros now thr s. exact (mutate_auto_advance (Idle now thr) s).
  - intros env ticks s.
    exact (reachable_auto_advance s _ (run_final_reachable env ticks s)).
  - intros t0 s R. exact (reachable_auto_advance (init t0) s R).
  - intros t0 env ticks.
    exact (reachable_auto_advance (init t0) _
             (run_final_reachable env ticks (init t0))).
Qed.

Lemma auto_advance_never_changes_witness :
  let step1 := mutate (Idle 20%Q 10%Q) (init 0%Q) in
  let step2 := mutate (Pressed (ButtonR 21%Q)) step1 in
  current_screen step2 = 2 /\ auto_advance step2 = true.
Proof.
  intros step1 step2. split; [reflexivity|].
  destruct auto_advance_never_changes as (_ & _ & _ & _ & Hreach & _).
  apply (Hreach 0%Q step2).
  apply reach_step. apply reach_step. apply reach_start.
Defined.

(** ** [execute_command] and the idle clock *)

(** C6. What [execute_command] does on the command screen with "Restart"
    selected, pressed when every sibling callback would have stored the
    clock reading 100: it runs the selected entry and keeps both indices, but
    [last_button_press] still holds 0, whereas [next_command] pressed at the
    same moment stores 100. Off the command screen it does nothing. *)
Theorem execute_command_skips_the_idle_clock :
  execute_command all_fine on_restart
    = returns on_restart
        [Stdout "Executing command: Restart"; ShowExecuting "Restart";
         Subprocess ["sudo"; "reboot"]%string] /\
  last_button_press (after (execute_command all_fine on_restart)) = 0%Q /\
  last_button_press (after (next_command 100%Q on_restart)) = 100%Q /\
  last_button_press (after (next_screen 100%Q on_restart)) = 100%Q /\
  (forall env s, after (execute_command env s) = s) /\
  (forall env s, current_screen s <> 3 -> execute_command env s = returns s []).
Proof.
  repeat apply conj; try reflexivity.
  - apply after_execute_command.
  - intros env s H. apply Z.eqb_neq in H. unfold execute_command.
    rewrite H. reflexivity.
Qed.

Lemma execute_command_skips_the_idle_clock_witness :
  execute_command all_fine (mkMonitor 1 0 0%Q true)
    = returns (mkMonitor 1 0 0%Q true) [].
Proof.
  apply (proj2 (proj2 (proj2 (proj2 (proj2
           execute_command_skips_the_idle_clock))))).
  cbn. lia.
Defined.

(** ** The loop of [run] *)

(** Ticks on which nothing goes wrong are all executed, and the loop then
    goes on with the ticks that follow. *)
Lemma main_loop_app gpio pre rest s :
  Forall completes pre ->
  let r1 := main_loop gpio pre s in
  let r2 := main_loop gpio rest (final r1) in
  status r1 = Looping /\
  iterations r1 = List.length pre /\
  main_loop gpio (pre ++ rest) s
  = {| final := final r2;
       trace := trace r1 ++ trace r2;
       status := status r2;
       iterations := List.length pre + iterations r2 |}.
Proof.
  intros Hpre. revert s.
  induction Hpre as [|t pre [Hc Hs] _ IH]; intros s; cbn zeta.
  - cbn. repeat split. destruct (main_loop gpio rest s); reflexivity.
  - cbn [main_loop app]. rewrite Hc, Hs.
    set (s1 := maybe_auto_advance (current_time t) auto_advance_interval s).
    destruct (run_presses (presses t) s1) as [s2 out2].
    destruct (IH s2) as (Hst & Hit & Heq). cbn zeta in Heq.
    rewrite Heq. cbn [final trace status iterations List.length].
    repeat split; [exact Hst | now rewrite Hit |].
    f_equal. cbn [app]. rewrite !app_assoc. reflexivity.
Qed.

(** A frame that cannot be drawn or displayed ends the loop at once. *)
Lemma main_loop_failing_tick gpio t post s e :
  canvas_result t = Some (Exception e) ->
  main_loop gpio (t :: post) s
  = {| final := maybe_auto_advance (current_time t) auto_advance_interval s;
       trace := [];
       status := Raised (Exception e);
       iterations := 1 |}.
Proof. intros H. cbn [main_loop]. rewrite H. reflexivity. Qed.

(** C7 (amended). The loop of [run] handles [KeyboardInterrupt] and nothing
    else. When, after any number of ticks without incident, a frame cannot
    be submitted to the display, the exception leaves [run]: the failing tick
    was the last one, whatever the outside world had in store afterwards,
    and neither it nor anything after it adds an event (no log line, no frame,
    no clearing of the display) to what the earlier ticks produced. *)
Theorem submit_failure_leaves_run :
  forall env pre t post s e,
    oled_answers env ->
    Forall completes pre ->
    canvas_result t = Some (Exception e) ->
    let r := run env (pre ++ t :: post) s in
    status r = Raised (Exception e) /\
    iterations r = S (List.length pre) /\
    trace r = trace (run env pre s).
Proof.
  intros env pre t post s e Hdev Hpre Hfail r.
  assert (L : forall out,
    let r' := run_displaying env out (pre ++ t :: post) s in
    status r' = Raised (Exception e) /\
    iterations r' = S (List.length pre) /\
    trace r' = trace (run_displaying env out pre s)).
  { intros out. unfold run_displaying. cbn [status iterations trace].
    destruct (main_loop_app (gpio_available env) pre (t :: post) s Hpre)
      as (_ & _ & Heq).
    cbn zeta in Heq. rewrite Heq.
    rewrite (main_loop_failing_tick _ t post _ e Hfail).
    cbn [final trace status iterations].
    repeat split; [lia|]. rewrite app_nil_r. reflexivity. }
  subst r. unfold run.
  destruct Hdev as [H|H].
  - rewrite H. apply L.
  - destruct (oled_3C env); [rewrite H|]; apply L.
Qed.

Lemma submit_failure_leaves_run_witness :
  let r := run display_at_3C ([fine_tick] ++ i2c_error :: [fine_tick]) (init 0%Q) in
  status r = Raised (Exception "[Errno 121] Remote I/O error") /\
  iterations r = 2%nat /\
  trace r = trace (run display_at_3C [fine_tick] (init 0%Q)).
Proof.
  apply (submit_failure_leaves_run display_at_3C [fine_tick] i2c_error
           [fine_tick] (init 0%Q) "[Errno 121] Remote I/O error").
  - left. reflexivity.
  - repeat constructor.
  - reflexivity.
Defined.

(** C7 as the specification has it would make the run below execute both
    ticks and still be looping. The display answers at 0x3C; the first frame
    fails with an I2C error; a second, faultless tick is on offer. [run] ends
    with the exception after one iteration, has displayed no frame and has
    printed nothing after its start-up banner. *)
Lemma submit_failure_is_fatal :
  let r := run display_at_3C [i2c_error; fine_tick] (init 0%Q) in
  status r = Raised (Exception "[Errno 121] Remote I/O error") /\
  status r <> Looping /\
  iterations r = 1%nat /\
  iterations r <> List.length [i2c_error; fine_tick] /\
  filter is_display (trace r) = [] /\
  trace r = [OledInit 60;
             Stdout "OLED initialized successfully on address 0x3C";
             LoadFont "LiberationMono-Regular.ttf";
             Stdout "Starting multi-screen display...";
             Stdout "Buttons: Left/Right = navigate, Up/Down = command menu, Center = execute";
             Stdout "Press Ctrl+C to exit"].
Proof.
  cbn zeta. repeat apply conj; try reflexivity; discriminate.
Qed.

(** ** Start-up of the display *)

Lemma execute_handler_no_init env s out e :
  forallb not_oled_init out = true ->
  forallb not_oled_init (output (execute_handler env s out e)) = true.
Proof.
  intros H. unfold execute_handler.
  destruct (show_error env); cbn [output raises returns];
    rewrite !forallb_app, H; reflexivity.
Qed.

Lemma callback_no_init p s :
  forallb not_oled_init (output (callback p s)) = true.
Proof.
  destruct p as [now|now|now|now|env]; cbn [callback]; try reflexivity.
  - unfold prev_command, print_selected.
    destruct (current_screen s =? 3); [|reflexivity].
    destruct (py_index commands _) as [[l c]|]; reflexivity.
  - unfold next_command, print_selected.
    destruct (current_screen s =? 3); [|reflexivity].
    destruct (py_index commands _) as [[l c]|]; reflexivity.
  - unfold execute_command.
    destruct (current_screen s =? 3); [|reflexivity].
    destruct (py_index commands _) as [[l c]|]; [|reflexivity].
    destruct (show_executing env); [now apply execute_handler_no_init|].
    destruct (subprocess_run env); [now apply execute_handler_no_init|].
    reflexivity.
Qed.

Lemma run_presses_no_init ps s :
  forallb not_oled_init (snd (run_presses ps s)) = true.
Proof.
  revert s. induction ps as [|p ps IH]; intros s; [reflexivity|].
  cbn [run_presses]. specialize (IH (after (callback p s))).
  destruct (run_presses ps (after (callback p s))) as [s' out].
  cbn [snd] in *. rewrite forallb_app, callback_no_init, IH. reflexivity.
Qed.

(** Once the loop runs, the display is never initialised again. *)
Lemma main_loop_no_init gpio ticks s :
  forallb not_oled_init (trace (main_loop gpio ticks s)) = true.
Proof.
  revert s. induction ticks as [|t rest IH]; intros s; [reflexivity|].
  cbn [main_loop].
  set (s1 := maybe_auto_advance (current_time t) auto_advance_interval s).
  destruct (canvas_result t) as [[| |msg]|]; try reflexivity.
  - unfold on_interrupt. cbn [trace]. destruct gpio; reflexivity.
  - destruct (sleep_interrupted t).
    + unfold on_interrupt. cbn [trace]. destruct gpio; reflexivity.
    + pose proof (run_presses_no_init (presses t) s1) as Hp.
      destruct (run_presses (presses t) s1) as [s2 out2]. cbn [snd] in Hp.
      cbn [trace]. rewrite !forallb_app, Hp, IH. reflexivity.
Qed.

Lemma main_loop_entered gpio ticks s :
  status (main_loop gpio ticks s) <> Returned /\
  (ticks = [] -> status (main_loop gpio ticks s) = Looping) /\
  (ticks <> [] -> (1 <= iterations (main_loop gpio ticks s))%nat).
Proof.
  revert s. induction ticks as [|t rest IH]; intros s.
  - cbn. repeat split; [discriminate | congruence].
  - cbn [main_loop].
    set (s1 := maybe_auto_advance (current_time t) auto_advance_interval s).
    destruct (canvas_result t) as [[| |msg]|];
      try (cbn; repeat split; [discriminate | discriminate | lia]).
    destruct (sleep_interrupted t);
      [cbn; repeat split; [discriminate | discriminate | lia]|].
    destruct (run_presses (presses t) s1) as [s2 out2].
    destruct (IH s2) as (Hst & _ & _).
    cbn [status iterations]. repeat split; [exact Hst | discriminate | lia].
Qed.

(** With a display, [run] is its preamble followed by the loop. *)
Lemma run_with_display env ticks s :
  oled_answers env ->
  let r := main_loop (gpio_available env) ticks s in
  run env ticks s
  = {| final := final r;
       trace := preamble env ++ trace r;
       status := status r;
       iterations := iterations r |}.
Proof.
  intros Hdev. cbn zeta. unfold run, run_displaying, preamble.
  destruct Hdev as [H|H].
  - rewrite H. rewrite <- !app_assoc. reflexivity.
  - destruct (oled_3C env); [rewrite H|]; rewrite <- !app_assoc; reflexivity.
Qed.

(** C8. [run] tries the display at 0x3C and, only if that fails, at 0x3D;
    these one or two attempts open the trace and no attempt follows them.
    If both fail, [run] prints the two errors and returns: no iteration of
    the loop starts and no frame is displayed. If one of them succeeds, [run]
    does not return that way and the loop is entered: with no tick on offer
    it is waiting in the loop, with one on offer an iteration starts. In
    that case [run] is the start-up messages, the font loading and the banner
    followed by the loop itself, and a first tick whose frame can be drawn
    puts a frame on the display. *)
Theorem display_startup :
  forall env ticks s,
    let r := run env ticks s in
    (forall e1 e2,
        oled_3C env = Some e1 -> oled_3D env = Some e2 ->
        r = {| final := s;
               trace := [OledInit 0x3C; OledInit 0x3D;
                         Stdout ("Error initializing OLED: " ++ e1)%string;
                         Stdout ("Also tried 0x3D: " ++ e2)%string];
               status := Returned;
               iterations := 0 |} /\
        filter is_display (trace r) = []) /\
    (oled_answers env ->
        status r <> Returned /\
        (ticks = [] -> status r = Looping) /\
        (ticks <> [] -> (1 <= iterations r)%nat)) /\
    (exists rest,
        trace r = oled_attempts env ++ rest /\
        forallb not_oled_init rest = true) /\
    filter is_oled_init (trace r) = oled_attempts env /\
    (oled_answers env ->
        let loop := main_loop (gpio_available env) ticks s in
        r = {| final := final loop;
               trace := preamble env ++ trace loop;
               status := status loop;
               iterations := iterations loop |} /\
        forall t rest,
          ticks = t :: rest -> canvas_result t = None ->
          exists shown, In (Display shown) (trace r)).
Proof.
  intros env ticks s r.
  assert (Hsplit : exists rest,
             trace r = oled_attempts env ++ rest /\
             forallb not_oled_init rest = true).
  { subst r. unfold run, run_displaying, oled_attempts.
    destruct (oled_3C env) as [e1|]; [destruct (oled_3D env) as [e2|]|];
      cbn [trace app]; eexists; (split; [reflexivity|]);
      try reflexivity;
      cbn [forallb]; rewrite forallb_app; cbn [forallb];
      rewrite main_loop_no_init;
      unfold load_fonts;
      destruct (liberation_font env); try destruct (dejavu_font env);
      reflexivity. }
  repeat apply conj.
  - intros e1 e2 H1 H2. subst r. unfold run. rewrite H1, H2.
    split; reflexivity.
  - intros Hdev. subst r. unfold run, run_displaying.
    pose proof (main_loop_entered (gpio_available env) ticks s) as Hloop.
    destruct Hdev as [H|H].
    + rewrite H. exact Hloop.
    + destruct (oled_3C env); [rewrite H|]; exact Hloop.
  - exact Hsplit.
  - destruct Hsplit as (rest & -> & Hrest).
    rewrite filter_app.
    assert (E : filter is_oled_init rest = []).
    { clear - Hrest. induction rest as [|x rest IH]; [reflexivity|].
      cbn [forallb] in Hrest. apply andb_true_iff in Hrest as [Hx Hr].
      cbn [filter]. unfold not_oled_init in Hx.
      apply negb_true_iff in Hx. rewrite Hx. apply IH, Hr. }
    rewrite E, app_nil_r. unfold oled_attempts.
    destruct (oled_3C env); reflexivity.
  - intros Hdev. cbn zeta. subst r.
    rewrite (run_with_display env ticks s Hdev). split; [reflexivity|].
    intros t rest -> Hc. cbn [trace main_loop]. rewrite Hc.
    eexists. apply in_or_app. right.
    destruct (sleep_interrupted t).
    + cbn. left. reflexivity.
    + destruct (run_presses (presses t) _) as [s2 out2]. cbn. left. reflexivity.
Qed.

Lemma display_startup_witness :
  (status (run no_display [fine_tick] (init 0%Q)) = Returned /\
   iterations (run no_display [fine_tick] (init 0%Q)) = 0%nat /\
   filter is_display (trace (run no_display [fine_tick] (init 0%Q))) = []) /\
  (status (run display_at_3D [fine_tick] (init 0%Q)) <> Returned /\
   (1 <= iterations (run display_at_3D [fine_tick] (init 0%Q)))%nat).
Proof.
  pose proof (display_startup no_display [fine_tick] (init 0%Q)) as Hbad.
  pose proof (display_startup display_at_3D [fine_tick] (init 0%Q)) as Hgood.
  cbv zeta in Hbad, Hgood.
  destruct Hbad as (Hfail & _). destruct Hgood as (_ & Hok & _).
  split.
  - destruct (Hfail _ _ eq_refl eq_refl) as [-> Hnone].
    repeat split.
  - destruct Hok as (Hst & _ & Hit); [right; reflexivity|].
    split; [exact Hst|]. apply Hit. discriminate.
Defined.

(** * Further properties of the program *)

(** ** Where a sequence of presses leads *)

Lemma callback_current_screen p s :
  current_screen (after (callback p s))
  = match p with
    | ButtonR _ => (current_screen s + 1) mod total_screens
    | ButtonL _ => (current_screen s - 1) mod total_screens
    | _ => current_screen s
    end.
Proof.
  callback_cases p; try reflexivity;
    destruct (current_screen s =? 3); reflexivity.
Qed.

(** The screen after any sequence of button presses is the screen before,
    moved by the number of Rights minus the number of Lefts, modulo 4: Up,
    Down and Center never change the screen, and Left undoes Right. *)
Theorem screen_after_presses :
  forall ps s,
    0 <= current_screen s < total_screens ->
    current_screen (fst (run_presses ps s))
    = (current_screen s + screen_shift ps) mod total_screens.
Proof.
  induction ps as [|p ps IH]; intros s Hs.
  - cbn. rewrite Z.add_0_r. symmetry. apply Z.mod_small. exact Hs.
  - cbn [run_presses].
    assert (Hs' : 0 <= current_screen (after (callback p s)) < total_screens).
    { rewrite callback_current_screen.
      destruct p; auto using screen_mod_range. }
    specialize (IH (after (callback p s)) Hs').
    destruct (run_presses ps (after (callback p s))) as [s' out].
    cbn [fst] in *. rewrite IH, callback_current_screen.
    destruct p; cbn [screen_shift]; try reflexivity;
      rewrite Z.add_mod_idemp_l by (unfold total_screens; lia);
      f_equal; lia.
Qed.

Lemma screen_after_presses_witness :
  current_screen
    (fst (run_presses [ButtonR 1%Q; ButtonB 2%Q; ButtonL 3%Q; ButtonL 4%Q]
            (init 0%Q)))
  = (0 + (0 - 1 - 1 + 0 + 1)) mod 4.
Proof.
  apply (screen_after_presses
           [ButtonR 1%Q; ButtonB 2%Q; ButtonL 3%Q; ButtonL 4%Q] (init 0%Q)).
  cbn. unfold total_screens. lia.
Defined.

(** On the command screen, Ups and Downs in any number and order keep the
    screen and move the selection by Downs minus Ups, modulo the number of
    commands; on any other screen they leave the object as it is. *)
Theorem selection_after_presses :
  forall ps s,
    forallb is_command_button ps = true ->
    (current_screen s = 3 ->
     0 <= selected_command s < len commands ->
     current_screen (fst (run_presses ps s)) = 3 /\
     selected_command (fst (run_presses ps s))
     = (selected_command s + command_shift ps) mod len commands) /\
    (current_screen s <> 3 -> run_presses ps s = (s, [])).
Proof.
  induction ps as [|p ps IH]; intros s Hps.
  - split.
    + intros Hs Hc. cbn. split; [exact Hs|].
      rewrite Z.add_0_r. symmetry. apply Z.mod_small. exact Hc.
    + reflexivity.
  - cbn [forallb] in Hps. apply andb_true_iff in Hps as [Hp Hps].
    specialize (IH (after (callback p s)) Hps). cbn [run_presses].
    split.
    + intros Hs Hc. destruct IH as [IH _].
      assert (E : current_screen (after (callback p s)) = 3).
      { rewrite callback_current_screen.
        destruct p; try discriminate Hp; exact Hs. }
      assert (Hc' : 0 <= selected_command (after (callback p s)) < len commands).
      { destruct p; try discriminate Hp; cbn [callback];
          rewrite ?after_prev_command, ?after_next_command, Hs;
          cbn [Z.eqb Pos.eqb selected_command]; apply command_mod_range. }
      destruct (IH E Hc') as [IHs IHc].
      destruct (run_presses ps (after (callback p s))) as [s' out].
      cbn [fst] in *. split; [exact IHs|]. rewrite IHc.
      destruct p; try discriminate Hp; cbn [callback command_shift];
        rewrite ?after_prev_command, ?after_next_command, Hs;
        cbn [Z.eqb Pos.eqb selected_command];
        rewrite Z.add_mod_idemp_l by (rewrite len_commands; lia);
        f_equal; lia.
    + intros Hs. destruct IH as [_ IH].
      assert (E : callback p s = returns s []).
      { apply Z.eqb_neq in Hs.
        destruct p; try discriminate Hp; cbn [callback];
          unfold prev_command, next_command; rewrite Hs; reflexivity. }
      rewrite E in IH |- *. cbn [after returns output] in IH |- *.
      rewrite (IH Hs). reflexivity.
Qed.

Lemma selection_after_presses_witness :
  selected_command
    (fst (run_presses [ButtonB 1%Q; ButtonB 2%Q; ButtonA 3%Q]
            (mkMonitor 3 0 0%Q true)))
  = (0 + (0 - 1 + 1 + 1)) mod 2 /\
  run_presses [ButtonB 1%Q; ButtonB 2%Q; ButtonA 3%Q] (init 0%Q)
  = (init 0%Q, []).
Proof.
  destruct (selection_after_presses
              [ButtonB 1%Q; ButtonB 2%Q; ButtonA 3%Q]
              (mkMonitor 3 0 0%Q true) eq_refl) as [Hon _].
  destruct (selection_after_presses
              [ButtonB 1%Q; ButtonB 2%Q; ButtonA 3%Q]
              (init 0%Q) eq_refl) as [_ Hoff].
  split.
  - apply Hon; cbn; [reflexivity | lia].
  - apply Hoff. cbn. lia.
Defined.

(** ** The idle timer on its own *)

Lemma maybe_auto_advance_quiet now thr s :
  (now - last_button_press s <= thr)%Q -> maybe_auto_advance now thr s = s.
Proof.
  intros H. unfold maybe_auto_advance, Qgtb.
  apply Qle_bool_iff in H. rewrite H. cbn [negb].
  rewrite andb_false_r. reflexivity.
Qed.

Lemma idle_checks_quiet ts thr s :
  (forall t, In t ts -> (t - last_button_press s <= thr)%Q) ->
  idle_checks ts thr s = s.
Proof.
  unfold idle_checks. induction ts as [|t ts IH]; intros H; [reflexivity|].
  cbn [fold_left]. rewrite maybe_auto_advance_quiet by (apply H; left; reflexivity).
  apply IH. intros t' Ht'. apply H. right. exact Ht'.
Qed.

(** Auto-advances are more than the threshold apart: among any number of
    checks whose clock readings span no more than the threshold, at most one
    moves the screen, whatever the object was before. *)
Theorem one_auto_advance_per_window :
  forall (ts : list Q) (a b thr : Q) (s : SystemMonitor),
    (forall t, In t ts -> a <= t /\ t <= b)%Q ->
    (b - a <= thr)%Q ->
    idle_checks ts thr s = s \/
    exists t, In t ts /\
      idle_checks ts thr s
      = {| current_screen := (current_screen s + 1) mod total_screens;
           selected_command := selected_command s;
           last_button_press := t;
           auto_advance := auto_advance s |}.
Proof.
  intros ts a b thr s Hin Hspan. revert s.
  induction ts as [|t ts IH]; intros s; [left; reflexivity|].
  assert (Hin' : forall t', In t' ts -> (a <= t' /\ t' <= b)%Q).
  { intros t' Ht'. apply Hin. right. exact Ht'. }
  change (idle_checks (t :: ts) thr s)
    with (idle_checks ts thr (maybe_auto_advance t thr s)).
  destruct (maybe_auto_advance_cases t thr s) as [-> | ->].
  - destruct (IH Hin' s) as [E | (t' & Ht' & E)].
    + left. exact E.
    + right. exists t'. split; [right; exact Ht' | exact E].
  - right. exists t. split; [left; reflexivity|].
    apply idle_checks_quiet. cbn [last_button_press].
    intros t' Ht'. destruct (Hin' t' Ht') as [_ Hb].
    destruct (Hin t (or_introl eq_refl)) as [Ha _]. lra.
Qed.

Lemma one_auto_advance_per_window_witness :
  idle_checks [11%Q; 12%Q; 21%Q] 10%Q (init 0%Q) = init 0%Q \/
  exists t, In t [11%Q; 12%Q; 21%Q] /\
    idle_checks [11%Q; 12%Q; 21%Q] 10%Q (init 0%Q)
    = mkMonitor ((0 + 1) mod 4) 0 t true.
Proof.
  apply (one_auto_advance_per_window [11%Q; 12%Q; 21%Q] 11%Q 21%Q 10%Q (init 0%Q)).
  - intros t [<- | [<- | [<- | []]]]; split; vm_compute; discriminate.
  - vm_compute. discriminate.
Defined.

Lemma maybe_auto_advance_climbs now thr s :
  in_range s ->
  let s' := maybe_auto_advance now thr s in
  in_range s' /\
  current_screen s <= current_screen s' /\
  selected_command s' = selected_command s /\
  auto_advance s' = auto_advance s.
Proof.
  intros Hr. cbn zeta.
  assert (Hsame : in_range s /\ current_screen s <= current_screen s /\
                  selected_command s = selected_command s /\
                  auto_advance s = auto_advance s).
  { split; [exact Hr|]. split; [lia|]. split; reflexivity. }
  unfold maybe_auto_advance.
  destruct (auto_advance s && negb (current_screen s =? 3)
            && Qgtb (now - last_button_press s) thr) eqn:E0; [|exact Hsame].
  apply auto_advance_condition in E0 as (_ & E3 & _). destruct Hr as [Hs Hc].
  assert (E : (current_screen s + 1) mod total_screens = current_screen s + 1).
  { unfold total_screens in *. apply Z.mod_small. lia. }
  unfold in_range. cbn [current_screen selected_command auto_advance].
  rewrite E. unfold total_screens in *. repeat split; auto; lia.
Qed.

(** Left to itself the idle timer only moves forward and stops at the
    command screen: over any run of the loop without button presses, from an
    object in range, the screen never goes back, never wraps to the first
    screen, and the selection is untouched. *)
Theorem idle_loop_parks :
  forall gpio ticks s,
    in_range s ->
    Forall (fun t => presses t = []) ticks ->
    let s' := final (main_loop gpio ticks s) in
    current_screen s <= current_screen s' <= 3 /\
    selected_command s' = selected_command s.
Proof.
  intros gpio ticks s Hr Hq. revert s Hr.
  induction Hq as [|t rest Hp _ IH]; intros s Hr; cbn zeta.
  - destruct Hr as [Hs _]. unfold total_screens in Hs. cbn. lia.
  - cbn [main_loop].
    destruct (maybe_auto_advance_climbs (current_time t)
                auto_advance_interval s Hr) as (Hr1 & Hup & Hsel & _).
    set (s1 := maybe_auto_advance (current_time t) auto_advance_interval s) in *.
    assert (Hs1 : current_screen s1 <= 3).
    { destruct Hr1 as [H _]. unfold total_screens in H. lia. }
    destruct (canvas_result t) as [[| |msg]|]; cbn [on_interrupt final];
      try (split; [lia | exact Hsel]).
    destruct (sleep_interrupted t); cbn [on_interrupt final];
      [split; [lia | exact Hsel]|].
    rewrite Hp. cbn [run_presses final].
    specialize (IH s1 Hr1). cbn zeta in IH. split; [lia|].
    rewrite <- Hsel. apply IH.
Qed.

Lemma idle_loop_parks_witness :
  let ticks := [mkTick 11%Q None false []; mkTick 22%Q None false [];
                mkTick 33%Q None false []; mkTick 44%Q None false [];
                mkTick 55%Q None false []] in
  let s' := final (main_loop false ticks (init 0%Q)) in
  current_screen s' = 3 /\
  current_screen (init 0%Q) <= current_screen s' <= 3 /\
  selected_command s' = selected_command (init 0%Q).
Proof.
  intros ticks s'. split; [reflexivity|].
  apply (idle_loop_parks false ticks (init 0%Q)).
  - apply init_in_range.
  - repeat constructor.
Defined.

(** ** What the loop of [run] writes *)

Lemma execute_handler_events env s out e :
  forallb from_callback out = true ->
  forallb from_callback (output (execute_handler env s out e)) = true.
Proof.
  intros H. unfold execute_handler.
  destruct (show_error env); cbn [output raises returns];
    rewrite !forallb_app, H; reflexivity.
Qed.

Lemma callback_events p s : forallb from_callback (output (callback p s)) = true.
Proof.
  destruct p as [now|now|now|now|env]; cbn [callback]; try reflexivity.
  - unfold prev_command, print_selected.
    destruct (current_screen s =? 3); [|reflexivity].
    destruct (py_index commands _) as [[l c]|]; reflexivity.
  - unfold next_command, print_selected.
    destruct (current_screen s =? 3); [|reflexivity].
    destruct (py_index commands _) as [[l c]|]; reflexivity.
  - unfold execute_command.
    destruct (current_screen s =? 3); [|reflexivity].
    destruct (py_index commands _) as [[l c]|]; [|reflexivity].
    destruct (show_executing env); [now apply execute_handler_events|].
    destruct (subprocess_run env); [now apply execute_handler_events|].
    reflexivity.
Qed.

Lemma run_presses_events ps s :
  forallb from_callback (snd (run_presses ps s)) = true.
Proof.
  revert s. induction ps as [|p ps IH]; intros s; [reflexivity|].
  cbn [run_presses]. specialize (IH (after (callback p s))).
  destruct (run_presses ps (after (callback p s))) as [s' out].
  cbn [snd] in *. rewrite forallb_app, callback_events, IH. reflexivity.
Qed.

(** Events of callbacks pass every test that the five kinds of events a
    callback can produce pass. *)
Lemma forallb_from_callback (P : event -> bool) (out : list event) :
  (forall e, from_callback e = true -> P e = true) ->
  forallb from_callback out = true -> forallb P out = true.
Proof.
  intros HP H. rewrite forallb_forall in *. auto.
Qed.

Lemma filter_from_callback (P : event -> bool) (out : list event) :
  (forall e, from_callback e = true -> P e = false) ->
  forallb from_callback out = true -> filter P out = [].
Proof.
  intros HP. induction out as [|e out IH]; intros H; [reflexivity|].
  cbn [forallb] in H. apply andb_true_iff in H as [He Hout].
  cbn [filter]. rewrite (HP e He). apply IH, Hout.
Qed.

Lemma from_callback_shows_panel e : from_callback e = true -> shows_panel e = true.
Proof. destruct e as [| | |[p|]| | | | | |]; cbn; congruence. Qed.

Lemma from_callback_not_display e : from_callback e = true -> is_display e = false.
Proof. destruct e; cbn; congruence. Qed.

Lemma from_callback_not_clear e :
  from_callback e = true -> is_device_clear e = false.
Proof. destruct e; cbn; congruence. Qed.

Lemma from_callback_not_cleanup e :
  from_callback e = true -> is_gpio_cleanup e = false.
Proof. destruct e; cbn; congruence. Qed.

Lemma dispatch_in_range x :
  0 <= x < total_screens -> exists p, dispatch x = Some p.
Proof.
  unfold total_screens, dispatch. intros H.
  destruct (x =? 0) eqn:E0; [eauto|].
  destruct (x =? 1) eqn:E1; [eauto|].
  destruct (x =? 2) eqn:E2; [eauto|].
  destruct (x =? 3) eqn:E3; [eauto|].
  lia.
Qed.

Lemma run_presses_in_range ps s : in_range s -> in_range (fst (run_presses ps s)).
Proof.
  intros H. exact (reachable_in_range s _ H (run_presses_reachable ps s)).
Qed.

Lemma main_loop_shows_panels gpio ticks s :
  in_range s -> forallb shows_panel (trace (main_loop gpio ticks s)) = true.
Proof.
  revert s. induction ticks as [|t rest IH]; intros s Hr; [reflexivity|].
  cbn [main_loop].
  pose proof (mutate_in_range (Idle (current_time t) auto_advance_interval) s Hr)
    as Hr1. cbn [mutate] in Hr1.
  set (s1 := maybe_auto_advance (current_time t) auto_advance_interval s) in *.
  destruct (dispatch_in_range _ (proj1 Hr1)) as [p Hp].
  destruct (canvas_result t) as [[| |msg]|]; try reflexivity.
  - unfold on_interrupt. cbn [trace]. destruct gpio; reflexivity.
  - rewrite Hp. destruct (sleep_interrupted t).
    + unfold on_interrupt. cbn [trace]. destruct gpio; reflexivity.
    + pose proof (run_presses_events (presses t) s1) as He.
      pose proof (run_presses_in_range (presses t) s1 Hr1) as Hr2.
      destruct (run_presses (presses t) s1) as [s2 out2]. cbn [fst snd] in *.
      cbn [trace]. rewrite !forallb_app, (IH s2 Hr2).
      rewrite (forallb_from_callback shows_panel out2
                 from_callback_shows_panel He).
      reflexivity.
Qed.


(** Every iteration of the loop displays exactly one frame, except the one
    that ends [run] (a failed frame or Ctrl-C), which displays at most one. *)
Theorem one_frame_per_iteration :
  forall gpio ticks s,
    let r := main_loop gpio ticks s in
    let frames := List.length (filter is_display (trace r)) in
    (frames <= iterations r <= S frames)%nat /\
    (status r = Looping -> frames = iterations r /\ frames = List.length ticks).
Proof.
  intros gpio ticks. induction ticks as [|t rest IH]; intros s; cbn zeta.
  - cbn. split; [lia | auto].
  - cbn [main_loop].
    set (s1 := maybe_auto_advance (current_time t) auto_advance_interval s).
    destruct (canvas_result t) as [[| |msg]|];
      try (cbn; split; [lia | discriminate]).
    + unfold on_interrupt. cbn [trace iterations status].
      destruct gpio; cbn; (split; [lia | discriminate]).
    + destruct (sleep_interrupted t).
      * unfold on_interrupt. cbn [trace iterations status].
        destruct gpio; cbn; (split; [lia | discriminate]).
      * pose proof (run_presses_events (presses t) s1) as He.
        destruct (run_presses (presses t) s1) as [s2 out2]. cbn [snd] in He.
        specialize (IH s2). cbn zeta in IH. destruct IH as [IH1 IH2].
        cbn [trace iterations status app filter is_display List.length].
        rewrite filter_app,
          (filter_from_callback is_display out2 from_callback_not_display He).
        cbn [app List.length]. split; [lia|].
        intros Hst. destruct (IH2 Hst). split; lia.
Qed.

Lemma one_frame_per_iteration_witness :
  let r := main_loop true [fine_tick; fine_tick] (init 0%Q) in
  List.length (filter is_display (trace r)) = iterations r /\
  List.length (filter is_display (trace r)) = 2%nat.
Proof.
  apply (one_frame_per_iteration true [fine_tick; fine_tick] (init 0%Q)).
  reflexivity.
Defined.

(** ** Leaving the loop *)

Lemma preamble_quiet env :
  filter is_device_clear (preamble env) = [] /\
  filter is_gpio_cleanup (preamble env) = [] /\
  filter is_display (preamble env) = [].
Proof.
  unfold preamble, load_fonts.
  destruct (oled_3C env); destruct (liberation_font env);
    destruct (dejavu_font env); repeat split; reflexivity.
Qed.

Lemma main_loop_cleanup gpio ticks s :
  let r := main_loop gpio ticks s in
  filter is_device_clear (trace r)
    = (if exited (status r) then [DeviceClear] else []) /\
  filter is_gpio_cleanup (trace r)
    = (if exited (status r) && gpio then [GpioCleanup] else []).
Proof.
  revert s. induction ticks as [|t rest IH]; intros s; cbn zeta.
  - split; reflexivity.
  - cbn [main_loop].
    set (s1 := maybe_auto_advance (current_time t) auto_advance_interval s).
    destruct (canvas_result t) as [[| |msg]|]; try (split; reflexivity).
    + unfold on_interrupt. cbn [trace status exited].
      destruct gpio; split; reflexivity.
    + destruct (sleep_interrupted t).
      * unfold on_interrupt. cbn [trace status exited].
        destruct gpio; split; reflexivity.
      * pose proof (run_presses_events (presses t) s1) as He.
        destruct (run_presses (presses t) s1) as [s2 out2]. cbn [snd] in He.
        destruct (IH s2) as [IH1 IH2].
        cbn [trace status app filter is_device_clear is_gpio_cleanup].
        rewrite !filter_app.
        rewrite (filter_from_callback is_device_clear out2
                   from_callback_not_clear He).
        rewrite (filter_from_callback is_gpio_cleanup out2
                   from_callback_not_cleanup He).
        split; assumption.
Qed.


Lemma main_loop_interrupted gpio t post s :
  interrupted t ->
  exists frame,
    main_loop gpio (t :: post) s
    = {| final := maybe_auto_advance (current_time t) auto_advance_interval s;
         trace := frame ++ farewell gpio;
         status := Exited;
         iterations := 1 |} /\
    forallb is_display frame = true.
Proof.
  intros [H | [H1 H2]]; cbn [main_loop].
  - rewrite H. exists []. split; reflexivity.
  - rewrite H1, H2. eexists [_]. split; reflexivity.
Qed.


(** ** [str.split] *)

Lemma flush_token cur tok :
  forallb (fun c => negb (is_space c)) cur = true ->
  In tok (match cur with
          | [] => []
          | _ => [string_of_list_ascii (rev cur)]
          end) ->
  is_token tok = true.
Proof.
  intros Hcur Hin. destruct cur as [|c0 cur']; [destruct Hin|].
  destruct Hin as [<- | []]. unfold is_token.
  rewrite list_ascii_of_string_of_list_ascii.
  assert (Hrev : forallb (fun c => negb (is_space c)) (rev (c0 :: cur')) = true).
  { rewrite forallb_forall in *. intros x Hx. apply Hcur.
    apply in_rev. exact Hx. }
  destruct (rev (c0 :: cur')) eqn:E; [|exact Hrev].
  apply (f_equal (@List.length ascii)) in E. rewrite length_rev in E.
  discriminate E.
Qed.

Lemma split_from_tokens s : forall cur tok,
  forallb (fun c => negb (is_space c)) cur = true ->
  In tok (split_from cur s) -> is_token tok = true.
Proof.
  induction s as [|c rest IH]; intros cur tok Hcur Hin.
  - cbn [split_from] in Hin. exact (flush_token cur tok Hcur Hin).
  - cbn [split_from] in Hin. destruct (is_space c) eqn:Ec.
    + apply in_app_or in Hin as [Hin | Hin].
      * exact (flush_token cur tok Hcur Hin).
      * apply (IH [] tok eq_refl Hin).
    + apply (IH (c :: cur) tok); [|exact Hin].
      cbn [forallb]. rewrite Ec, Hcur. reflexivity.
Qed.

Lemma split_tokens s tok : In tok (split s) -> is_token tok = true.
Proof. apply split_from_tokens. reflexivity. Qed.

Lemma split_from_blank ws : forall cur,
  forallb is_space ws = true ->
  split_from cur (string_of_list_ascii ws) = split_from cur "".
Proof.
  induction ws as [|c ws IH]; intros cur H; [reflexivity|].
  cbn [forallb] in H. apply andb_true_iff in H as [Hc Hws].
  cbn [string_of_list_ascii split_from]. rewrite Hc, (IH [] Hws).
  cbn [split_from]. apply app_nil_r.
Qed.

Lemma split_blank s : is_blank s = true -> split s = [].
Proof.
  unfold is_blank, split. intros H.
  rewrite <- (string_of_list_ascii_of_string s).
  rewrite (split_from_blank _ [] H). reflexivity.
Qed.

Lemma split_from_trailing l ws : forall cur,
  forallb is_space ws = true ->
  split_from cur (string_of_list_ascii (l ++ ws))
  = split_from cur (string_of_list_ascii l).
Proof.
  induction l as [|c l IH]; intros cur H.
  - cbn [app string_of_list_ascii]. apply split_from_blank, H.
  - cbn [app string_of_list_ascii split_from].
    destruct (is_space c); rewrite IH by exact H; reflexivity.
Qed.

Lemma split_from_leading l :
  split_from [] (string_of_list_ascii (lstrip_chars l))
  = split_from [] (string_of_list_ascii l).
Proof.
  induction l as [|c l IH]; [reflexivity|].
  cbn [lstrip_chars]. destruct (is_space c) eqn:Ec; [|reflexivity].
  cbn [string_of_list_ascii split_from]. rewrite Ec. exact IH.
Qed.

Lemma lstrip_chars_split m :
  exists ws, forallb is_space ws = true /\ m = ws ++ lstrip_chars m.
Proof.
  induction m as [|c m (ws & Hws & E)].
  - exists []. split; reflexivity.
  - cbn [lstrip_chars]. destruct (is_space c) eqn:Ec.
    + exists (c :: ws). cbn [forallb app]. rewrite Ec, Hws.
      split; [reflexivity | congruence].
    + exists []. split; reflexivity.
Qed.

(** [s.strip().split()] is [s.split()]. *)
Lemma split_strip s : split (strip s) = split s.
Proof.
  unfold split, strip.
  set (m := lstrip_chars (list_ascii_of_string s)).
  destruct (lstrip_chars_split (rev m)) as (ws & Hws & E).
  assert (Em : m = rev (lstrip_chars (rev m)) ++ rev ws).
  { rewrite <- rev_app_distr, <- E, rev_involutive. reflexivity. }
  assert (Hrev : forallb is_space (rev ws) = true).
  { rewrite forallb_forall in *. intros x Hx. apply Hws, in_rev, Hx. }
  rewrite <- (split_from_trailing _ (rev ws) [] Hrev), <- Em.
  subst m. rewrite split_from_leading, string_of_list_ascii_of_string.
  reflexivity.
Qed.

(** ** [get_ip_address] *)

Lemma py_index_0 {A : Type} (l : list A) : py_index l 0 = hd_error l.
Proof. destruct l as [|a l]; reflexivity. Qed.

(** When no route exists and the resolver gives a loopback address, the
    answer is the first word of what [hostname -I] prints (ASCII text),
    which is non-empty and free of whitespace; if it prints nothing but
    whitespace, the [IndexError] is swallowed and the answer is
    "No IP Found". *)
Theorem hostname_I_fallback :
  forall env ip out,
    is_ascii out = true ->
    route_ip env = None ->
    resolved_ip env = Some ip ->
    startswith "127." ip = true ->
    hostname_I env = Some out ->
    get_ip_address env
      = match split out with
        | [] => "No IP Found"%string
        | first :: _ => first
        end /\
    (is_blank out = true -> get_ip_address env = "No IP Found"%string) /\
    (is_blank out = false -> is_token (get_ip_address env) = true).
Proof.
  intros env ip out _ Hroute Hres Hloop Hout.
  assert (E : get_ip_address env
              = match split out with
                | [] => "No IP Found"%string
                | first :: _ => first
                end).
  { unfold get_ip_address. rewrite Hroute, Hres, Hloop, Hout.
    rewrite split_strip, py_index_0. destruct (split out); reflexivity. }
  split; [exact E|]. split.
  - intros Hb. rewrite E, (split_blank out Hb). reflexivity.
  - intros Hb. rewrite E. destruct (split out) as [|first rest] eqn:Es.
    + exfalso. revert Hb Es. unfold is_blank, split.
      rewrite <- (string_of_list_ascii_of_string out) at 2.
      generalize (list_ascii_of_string out). intros l.
      assert (G : forall cur, forallb is_space l = false ->
                    split_from cur (string_of_list_ascii l) <> []).
      { induction l as [|c l IH]; intros cur H; [discriminate H|].
        cbn [forallb] in H. cbn [string_of_list_ascii split_from].
        destruct (is_space c) eqn:Ec.
        - cbn [andb] in H. intros Habs. apply app_eq_nil in Habs as [_ Habs].
          exact (IH [] H Habs).
        - clear IH H. revert c cur Ec.
          induction l as [|c' l IH]; intros c cur Ec.
          + cbn. discriminate.
          + cbn [string_of_list_ascii split_from].
            destruct (is_space c') eqn:Ec'.
            * cbn. discriminate.
            * apply IH, Ec'. }
      intros H. apply G, H.
    + apply (split_tokens out). rewrite Es. left. reflexivity.
Qed.

Lemma hostname_I_fallback_witness :
  let env := mkNet None (Some "127.0.1.1"%string)
               (Some " 192.168.1.20 10.0.0.3 "%string) in
  get_ip_address env = "192.168.1.20"%string /\
  get_ip_address (mkNet None (Some "127.0.1.1"%string) (Some "  "%string))
    = "No IP Found"%string.
Proof.
  split.
  - destruct (hostname_I_fallback
                (mkNet None (Some "127.0.1.1"%string)
                   (Some " 192.168.1.20 10.0.0.3 "%string))
                "127.0.1.1" " 192.168.1.20 10.0.0.3 "
                eq_refl eq_refl eq_refl eq_refl eq_refl) as (E & _).
    rewrite E. reflexivity.
  - apply (hostname_I_fallback
             (mkNet None (Some "127.0.1.1"%string) (Some "  "%string))
             "127.0.1.1" "  " eq_refl eq_refl eq_refl eq_refl eq_refl).
    reflexivity.
Defined.

(** Without a route, and with [hostname -I] printing ASCII text,
    [get_ip_address] never hands back the loopback address of the resolver:
    an answer that starts with "127." can only be the first word printed by
    [hostname -I]. *)
Theorem loopback_only_from_hostname_I :
  forall env,
    (forall out, hostname_I env = Some out -> is_ascii out = true) ->
    route_ip env = None ->
    startswith "127." (get_ip_address env) = true ->
    exists ip out,
      resolved_ip env = Some ip /\ startswith "127." ip = true /\
      hostname_I env = Some out /\
      hd_error (split out) = Some (get_ip_address env).
Proof.
  intros env _ Hroute. unfold get_ip_address. rewrite Hroute.
  destruct (resolved_ip env) as [ip|]; [|discriminate].
  destruct (startswith "127." ip) eqn:Hloop.
  - destruct (hostname_I env) as [out|]; [|discriminate].
    rewrite split_strip, py_index_0.
    destruct (split out) as [|first rest] eqn:Es; [discriminate|].
    intros _. exists ip, out. rewrite Es. repeat split; auto.
  - intros H. congruence.
Qed.

Lemma loopback_only_from_hostname_I_witness :
  let env := mkNet None (Some "127.0.1.1"%string) (Some "127.0.0.1"%string) in
  exists ip out,
    resolved_ip env = Some ip /\ startswith "127." ip = true /\
    hostname_I env = Some out /\
    hd_error (split out) = Some (get_ip_address env).
Proof.
  apply (loopback_only_from_hostname_I
           (mkNet None (Some "127.0.1.1"%string) (Some "127.0.0.1"%string)));
    try reflexivity.
  intros out [= <-]. reflexivity.
Defined.

(** ** [execute_command] and the outside world *)

Lemma execute_handler_output env s out e :
  exists tail,
    output (execute_handler env s out e) = out ++ tail /\
    filter is_subprocess tail = [] /\
    match show_error env with
    | None =>
        raised (execute_handler env s out e) = None /\
        tail = [Stdout ("Error executing command: " ++ e)%string;
                ShowError e; Sleep 3]
    | Some e2 =>
        raised (execute_handler env s out e) = Some (Exception e2) /\
        tail = [Stdout ("Error executing command: " ++ e)%string]
    end.
Proof.
  unfold execute_handler. destruct (show_error env) as [e2|].
  - eexists. cbn [output raises raised]. repeat split.
  - eexists. cbn [output returns raised]. rewrite <- app_assoc.
    repeat split.
Qed.

Lemma filter_nil_not_in {A : Type} (P : A -> bool) (l : list A) (x : A) :
  filter P l = [] -> P x = true -> ~ In x l.
Proof.
  intros Hf Hx Hin.
  assert (H : In x (filter P l)) by (apply filter_In; auto).
  rewrite Hf in H. exact H.
Qed.

(** A process is spawned by [execute_command] only on the command screen
    and only after the "Executing..." frame was displayed; it is the
    command of the selected entry, split into words none of which is empty
    or contains whitespace, and it is the only process of that press. *)
Theorem subprocess_only_from_command_screen :
  forall env s argv,
    In (Subprocess argv) (output (execute_command env s)) ->
    current_screen s = 3 /\
    show_executing env = None /\
    exists label command rest,
      py_index commands (selected_command s) = Some (label, command) /\
      argv = split command /\
      forallb is_token argv = true /\
      output (execute_command env s)
        = [Stdout ("Executing command: " ++ label)%string;
           ShowExecuting label; Subprocess argv] ++ rest /\
      filter is_subprocess rest = [].
Proof.
  intros env s argv. unfold execute_command.
  destruct (current_screen s =? 3) eqn:E3; [|intros []].
  apply Z.eqb_eq in E3.
  destruct (py_index commands (selected_command s)) as [[label command]|];
    [|intros []].
  assert (Htok : forallb is_token (split command) = true).
  { apply forallb_forall. intros tok. apply split_tokens. }
  destruct (show_executing env) as [e|].
  - destruct (execute_handler_output env s
                [Stdout ("Executing command: " ++ label)%string] e)
      as (tail & -> & Htail & _).
    intros Hin. exfalso. apply in_app_or in Hin as [[H | []] | H].
    + discriminate H.
    + exact (filter_nil_not_in is_subprocess tail (Subprocess argv) Htail eq_refl H).
  - destruct (subprocess_run env) as [e|].
    + destruct (execute_handler_output env s
                  ([Stdout ("Executing command: " ++ label)%string]
                   ++ [ShowExecuting label; Subprocess (split command)]) e)
        as (tail & -> & Htail & _).
      intros Hin.
      assert (argv = split command) as ->.
      { apply in_app_or in Hin as [[H | [H | [H | []]]] | H];
          try discriminate H.
        - congruence.
        - exfalso.
          exact (filter_nil_not_in is_subprocess tail (Subprocess argv) Htail eq_refl H). }
      split; [exact E3|]. split; [reflexivity|].
      exists label, command, tail. repeat split; assumption.
    + cbn [output returns app]. intros [H | [H | [H | []]]];
        try discriminate H.
      injection H as <-. split; [exact E3|]. split; [reflexivity|].
      exists label, command, []. repeat split. exact Htok.
Qed.

Lemma subprocess_only_from_command_screen_witness :
  current_screen (mkMonitor 3 1 0%Q true) = 3 /\
  show_executing (mkExecEnv None (Some "exit status 1"%string) None) = None /\
  exists label command rest,
    py_index commands 1 = Some (label, command) /\
    ["sudo"; "shutdown"; "-h"; "now"]%string = split command /\
    forallb is_token ["sudo"; "shutdown"; "-h"; "now"]%string = true /\
    output (execute_command (mkExecEnv None (Some "exit status 1"%string) None)
              (mkMonitor 3 1 0%Q true))
      = [Stdout ("Executing command: " ++ label)%string;
         ShowExecuting label;
         Subprocess ["sudo"; "shutdown"; "-h"; "now"]%string] ++ rest /\
    filter is_subprocess rest = [].
Proof.
  apply (subprocess_only_from_command_screen
           (mkExecEnv None (Some "exit status 1"%string) None)
           (mkMonitor 3 1 0%Q true)
           ["sudo"; "shutdown"; "-h"; "now"]%string).
  cbn. right. right. left. reflexivity.
Defined.

(** How [execute_command] ends on the command screen of an object in
    range. Without a failure it returns having printed the label, shown the
    "Executing..." frame and run the command, and nothing else: no error
    line, no error frame, no sleep.
    After a failed frame or command it prints the error, shows it and
    sleeps three seconds. Only when that error frame fails too does an
    exception leave the callback, and it is that of the error frame. Off the
    command screen nothing is ever raised. *)
Theorem execute_command_outcomes :
  forall env s,
    in_range s ->
    let r := execute_command env s in
    (current_screen s = 3 ->
     match first_failure env, show_error env with
     | None, _ =>
         raised r = None /\
         exists label command,
           py_index commands (selected_command s) = Some (label, command) /\
           output r = [Stdout ("Executing command: " ++ label)%string;
                       ShowExecuting label; Subprocess (split command)]
     | Some e, None =>
         raised r = None /\
         exists before,
           output r = before
                      ++ [Stdout ("Error executing command: " ++ e)%string;
                          ShowError e; Sleep 3]
     | Some e, Some e2 =>
         raised r = Some (Exception e2) /\
         exists before,
           output r = before
                      ++ [Stdout ("Error executing command: " ++ e)%string]
     end) /\
    (forall x,
        raised r = Some x ->
        current_screen s = 3 /\
        exists e e2,
          first_failure env = Some e /\ show_error env = Some e2 /\
          x = Exception e2).
Proof.
  intros env s Hr. cbn zeta.
  destruct (py_index_in_range commands _ (proj2 Hr)) as [[label command] Hidx].
  unfold execute_command, first_failure. rewrite Hidx.
  destruct (current_screen s =? 3) eqn:E3.
  - apply Z.eqb_eq in E3.
    destruct (show_executing env) as [e|].
    + destruct (execute_handler_output env s
                  [Stdout ("Executing command: " ++ label)%string] e)
        as (tail & Hout & _ & Hend).
      rewrite Hout. destruct (show_error env) as [e2|];
        destruct Hend as [-> ->]; split.
      * intros _. split; [reflexivity | eauto].
      * intros x [= <-]. split; [exact E3 | eauto].
      * intros _. split; [reflexivity | eauto].
      * intros x Hx. discriminate Hx.
    + destruct (subprocess_run env) as [e|].
      * destruct (execute_handler_output env s
                    ([Stdout ("Executing command: " ++ label)%string]
                     ++ [ShowExecuting label; Subprocess (split command)]) e)
          as (tail & Hout & _ & Hend).
        rewrite Hout. destruct (show_error env) as [e2|];
          destruct Hend as [-> ->]; split.
        -- intros _. split; [reflexivity | eauto].
        -- intros x [= <-]. split; [exact E3 | eauto].
        -- intros _. split; [reflexivity | eauto].
        -- intros x Hx. discriminate Hx.
      * cbn [raised output returns]. split.
        -- intros _. split; [reflexivity|].
           exists label, command. split; reflexivity.
        -- intros x Hx. discriminate Hx.
  - apply Z.eqb_neq in E3. cbn [raised returns]. split.
    + intros H. contradiction.
    + intros x Hx. discriminate Hx.
Qed.

Lemma execute_command_outcomes_witness :
  let r := execute_command
             (mkExecEnv None (Some "exit status 1"%string) None) on_restart in
  raised r = None /\
  exists before,
    output r = before
               ++ [Stdout "Error executing command: exit status 1";
                   ShowError "exit status 1"; Sleep 3].
Proof.
  pose proof (execute_command_outcomes
                (mkExecEnv None (Some "exit status 1"%string) None) on_restart)
    as H.
  cbv zeta in H. destruct H as [H _].
  - unfold in_range, on_restart, total_screens. cbn. lia.
  - exact (H eq_refl).
Defined.

(** ** The command screen *)

Lemma len_cons {A : Type} (a : A) (l : list A) : len (a :: l) = len l + 1.
Proof. unfold len. cbn [List.length]. lia. Qed.

Lemma len_nonneg {A : Type} (l : list A) : 0 <= len l.
Proof. unfold len. lia. Qed.

Lemma command_rows_no_highlight cmds : forall i sel,
  sel < i \/ i + len cmds <= sel ->
  filter is_highlight (command_rows i cmds sel) = [].
Proof.
  induction cmds as [|[label c] rest IH]; intros i sel H; [reflexivity|].
  rewrite len_cons in H. pose proof (len_nonneg rest).
  cbn [command_rows].
  assert (E : (i =? sel) = false) by (apply Z.eqb_neq; lia).
  rewrite E. cbn [app filter is_highlight]. apply IH. lia.
Qed.

Lemma command_rows_highlight cmds : forall i sel,
  i <= sel < i + len cmds ->
  exists label c,
    nth_error cmds (Z.to_nat (sel - i)) = Some (label, c) /\
    filter is_highlight (command_rows i cmds sel)
    = [Text 2 (16 + sel * 12) ("> " ++ label)%string Font9 Black].
Proof.
  induction cmds as [|[label c] rest IH]; intros i sel H.
  - unfold len in H. cbn in H. lia.
  - rewrite len_cons in H. cbn [command_rows].
    destruct (i =? sel) eqn:E.
    + apply Z.eqb_eq in E. subst sel. exists label, c.
      rewrite Z.sub_diag. split; [reflexivity|].
      cbn [app filter is_highlight].
      rewrite command_rows_no_highlight by lia. reflexivity.
    + apply Z.eqb_neq in E. cbn [app filter is_highlight].
      destruct (IH (i + 1) sel ltac:(lia)) as (l' & c' & Hn & Hf).
      exists l', c'. split; [|exact Hf].
      replace (Z.to_nat (sel - i)) with (S (Z.to_nat (sel - (i + 1)))) by lia.
      exact Hn.
Qed.

Lemma py_index_nth {A : Type} (l : list A) (i : Z) :
  0 <= i < len l -> py_index l i = nth_error l (Z.to_nat i).
Proof.
  unfold py_index, len. intros [Hlo Hhi].
  apply Z.leb_le in Hlo. apply Z.ltb_lt in Hhi. rewrite Hlo, Hhi. reflexivity.
Qed.

(** The command screen highlights exactly one row when the selection is in
    range, the row of the entry [execute_command] runs on that screen; with
    the selection out of range it highlights none; and whatever the
    selection, every drawing call stays on the 128 x 64 display. *)
Theorem highlighted_row_is_what_runs :
  forall s,
    (0 <= selected_command s < len commands ->
     exists label command,
       py_index commands (selected_command s) = Some (label, command) /\
       filter is_highlight (draw_command_screen s)
       = [Text 2 (16 + selected_command s * 12) ("> " ++ label)%string
            Font9 Black] /\
       (current_screen s = 3 ->
        forall env,
          show_executing env = None ->
          In (ShowExecuting label) (output (execute_command env s)) /\
          In (Subprocess (split command)) (output (execute_command env s)))) /\
    (selected_command s < 0 \/ len commands <= selected_command s ->
     filter is_highlight (draw_command_screen s) = []) /\
    Forall on_screen (draw_command_screen s).
Proof.
  intros s. repeat apply conj.
  - intros Hc.
    destruct (command_rows_highlight commands 0 (selected_command s)
                ltac:(lia)) as (label & command & Hn & Hf).
    rewrite Z.sub_0_r in Hn. exists label, command.
    assert (Hidx : py_index commands (selected_command s) = Some (label, command)).
    { rewrite py_index_nth by exact Hc. exact Hn. }
    split; [exact Hidx|]. split; [exact Hf|].
    intros Hs env Hshow. unfold execute_command.
    apply Z.eqb_eq in Hs. rewrite Hs, Hidx, Hshow.
    destruct (subprocess_run env) as [e|].
    + destruct (execute_handler_output env s
                  ([Stdout ("Executing command: " ++ label)%string]
                   ++ [ShowExecuting label; Subprocess (split command)]) e)
        as (tail & -> & _).
      split; apply in_or_app; left; cbn; auto.
    + cbn. auto.
  - intros H. unfold draw_command_screen. cbn [filter is_highlight].
    apply command_rows_no_highlight. lia.
  - unfold draw_command_screen, commands. cbn [command_rows].
    destruct (0 =? selected_command s);
      destruct (0 + 1 =? selected_command s);
      repeat constructor; cbn; lia.
Qed.

Lemma highlighted_row_is_what_runs_witness :
  let s := mkMonitor 3 1 0%Q true in
  exists label command,
    py_index commands 1 = Some (label, command) /\
    filter is_highlight (draw_command_screen s)
    = [Text 2 (16 + 1 * 12) ("> " ++ label)%string Font9 Black] /\
    (current_screen s = 3 ->
     forall env,
       show_executing env = None ->
       In (ShowExecuting label) (output (execute_command env s)) /\
       In (Subprocess (split command)) (output (execute_command env s))).
Proof.
  apply (highlighted_row_is_what_runs (mkMonitor 3 1 0%Q true)).
  cbn. lia.
Defined.

(** ** The address screen *)

Lemma take_chars_length n : forall s,
  String.length (take_chars n s) = Nat.min n (String.length s).
Proof.
  unfold take_chars. induction n as [|n IH]; intros s.
  - destruct s; reflexivity.
  - destruct s as [|c s]; [reflexivity|].
    cbn [substring String.length Nat.min]. rewrite IH. reflexivity.
Qed.

Lemma take_chars_prefix n : forall s, String.prefix (take_chars n s) s = true.
Proof.
  unfold take_chars. induction n as [|n IH]; intros s.
  - destruct s; reflexivity.
  - destruct s as [|c s]; [reflexivity|].
    cbn [substring String.prefix].
    destruct (ascii_dec c c) as [_|N]; [apply IH | contradiction].
Qed.

Lemma take_chars_short n : forall s,
  (String.length s <= n)%nat -> take_chars n s = s.
Proof.
  unfold take_chars. induction n as [|n IH]; intros s H.
  - destruct s; [reflexivity | cbn in H; lia].
  - destruct s as [|c s]; [reflexivity|].
    cbn [substring]. cbn [String.length] in H. rewrite IH by lia. reflexivity.
Qed.

Lemma string_length_append a b :
  String.length (a ++ b) = (String.length a + String.length b)%nat.
Proof. induction a as [|c a IH]; cbn; [reflexivity | now rewrite IH]. Qed.

(** For an ASCII host name, the host line of the address screen shows its
    first 16 characters, all of it when it is that short, so the line never
    exceeds 22 characters; every text of the screen is anchored on the
    display. *)
Theorem host_line_is_cut :
  forall s net hostname clock,
    is_ascii hostname = true ->
    exists shown,
      nth_error (draw_ip_screen s net hostname clock) 2
      = Some (Text 2 30 ("Host: " ++ shown)%string Font9 White) /\
      String.prefix shown hostname = true /\
      String.length shown = Nat.min 16 (String.length hostname) /\
      (String.length ("Host: " ++ shown) <= 22)%nat /\
      ((String.length hostname <= 16)%nat -> shown = hostname) /\
      Forall on_screen (draw_ip_screen s net hostname clock).
Proof.
  intros s net hostname clock _. exists (take_chars 16 hostname).
  repeat apply conj.
  - reflexivity.
  - apply take_chars_prefix.
  - apply take_chars_length.
  - rewrite string_length_append, take_chars_length. cbn [String.length]. lia.
  - apply take_chars_short.
  - unfold draw_ip_screen. repeat constructor; cbn; lia.
Qed.

(** In every object the program can reach from a fresh monitor, the address
    screen reports "Auto: ON" and never "Auto: OFF". *)
Theorem address_screen_reports_auto_on :
  forall t0 s net hostname clock,
    reachable_from (init t0) s ->
    nth_error (draw_ip_screen s net hostname clock) 4
    = Some (Text 2 54 "Auto: ON" Font9 White) /\
    ~ In (Text 2 54 "Auto: OFF" Font9 White)
         (draw_ip_screen s net hostname clock).
Proof.
  intros t0 s net hostname clock R.
  pose proof (reachable_auto_advance (init t0) s R) as Ha. cbn in Ha.
  unfold draw_ip_screen. rewrite Ha. split; [reflexivity|].
  intros [H | [H | [H | [H | [H | []]]]]]; discriminate H.
Qed.

Lemma address_screen_reports_auto_on_witness :
  let s := mutate (Pressed (ButtonR 3%Q)) (init 0%Q) in
  nth_error (draw_ip_screen s (mkNet (Some "10.0.0.7"%string) None None)
               "bonnet" "12:00:00") 4
  = Some (Text 2 54 "Auto: ON" Font9 White) /\
  ~ In (Text 2 54 "Auto: OFF" Font9 White)
       (draw_ip_screen s (mkNet (Some "10.0.0.7"%string) None None)
          "bonnet" "12:00:00").
Proof.
  apply (address_screen_reports_auto_on 0%Q).
  apply reach_step. apply reach_start.
Defined.

(** ** [setup_buttons] *)

Lemma gpio_do_spec fails calls :
  exists rest,
    calls = fst (gpio_do fails calls) ++ rest /\
    (forall c, In c (fst (gpio_do fails calls)) -> fails c = None) /\
    match snd (gpio_do fails calls) with
    | None => rest = []
    | Some e => exists c rest', rest = c :: rest' /\ fails c = Some e
    end.
Proof.
  induction calls as [|c calls (rest & Heq & Hok & Herr)].
  - exists []. repeat split. intros c [].
  - cbn [gpio_do]. destruct (fails c) as [e|] eqn:Ec.
    + exists (c :: calls). cbn. repeat split; [intros c' []|eauto].
    + destruct (gpio_do fails calls) as [done err]. cbn [fst snd] in *.
      exists rest. repeat split.
      * cbn [app]. congruence.
      * intros c' [<- | Hin]; auto.
      * exact Herr.
Qed.

(** A list that opens a decomposition is determined by what comes before the
    first element on which the two sides differ. *)
Lemma prefix_unique {A : Type} (P : A -> Prop) (d1 d2 : list A) c1 c2 r1 r2 :
  d1 ++ c1 :: r1 = d2 ++ c2 :: r2 ->
  (forall c, In c d1 -> P c) -> ~ P c1 ->
  (forall c, In c d2 -> P c) -> ~ P c2 ->
  d1 = d2.
Proof.
  revert d2. induction d1 as [|a d1 IH]; intros d2 E H1 N1 H2 N2.
  - destruct d2 as [|b d2]; [reflexivity|].
    cbn in E. injection E as <- _. exfalso. apply N1, H2. left. reflexivity.
  - destruct d2 as [|b d2].
    + cbn in E. injection E as <- _. exfalso. apply N2, H1. left. reflexivity.
    + cbn in E. injection E as <- E. f_equal.
      apply IH; auto.
      * intros c Hc. apply H1. right. exact Hc.
      * intros c Hc. apply H2. right. exact Hc.
Qed.

(** [setup_buttons] makes its GPIO calls in order and stops at the first
    one that raises: exactly the calls before it have taken effect and the
    error is printed instead of "Button navigation enabled". Without
    [RPi.GPIO] it makes no call and prints nothing. *)
Theorem setup_buttons_stops_at_first_failure :
  forall available fails,
    let done := fst (setup_buttons available fails) in
    let out := snd (setup_buttons available fails) in
    (exists rest, setup_calls = done ++ rest) /\
    (available = false -> done = [] /\ out = []) /\
    (available = true ->
     (forall c, In c setup_calls -> fails c = None) ->
     done = setup_calls /\ out = [Stdout "Button navigation enabled"]) /\
    (forall before c rest e,
        available = true ->
        setup_calls = before ++ c :: rest ->
        (forall c', In c' before -> fails c' = None) ->
        fails c = Some e ->
        done = before /\
        out = [Stdout ("Error setting up buttons: " ++ e)%string]).
Proof.
  intros available fails. cbn zeta. unfold setup_buttons.
  destruct available; cbn [negb].
  2:{ repeat split; try discriminate. exists setup_calls. reflexivity. }
  destruct (gpio_do_spec fails setup_calls) as (rest & Heq & Hok & Herr).
  destruct (gpio_do fails setup_calls) as [done [e|]]; cbn [fst snd] in *.
  - destruct Herr as (c & rest' & -> & Hc).
    assert (Hin : In c setup_calls).
    { rewrite Heq. apply in_or_app. right. left. reflexivity. }
    split; [eauto|]. split; [discriminate|]. split.
    + intros _ Hall. rewrite (Hall c Hin) in Hc. discriminate Hc.
    + intros before c0 rest0 e0 _ Hsplit Hbefore Hc0.
      rewrite Hsplit in Heq.
      assert (E : before = done).
      { apply (prefix_unique (fun c => fails c = None) _ _ _ _ _ _ Heq);
          auto; congruence. }
      subst before. apply app_inv_head in Heq. injection Heq as <- _.
      split; [reflexivity | congruence].
  - subst rest. rewrite app_nil_r in Heq. subst done.
    split; [exists []; symmetry; apply app_nil_r|].
    split; [discriminate|]. split.
    + intros _ _. split; reflexivity.
    + intros before c0 rest0 e0 _ Hsplit _ Hc0. exfalso.
      assert (Hin : In c0 setup_calls).
      { rewrite Hsplit. apply in_or_app. right. left. reflexivity. }
      rewrite (Hok c0 Hin) in Hc0. discriminate Hc0.
Qed.

Lemma setup_buttons_stops_at_first_failure_witness :
  let fails c := match c with
                 | AddEventDetect 5 PrevCommand 300 =>
                     Some "Failed to add edge detection"%string
                 | _ => None
                 end in
  fst (setup_buttons true fails)
  = [SetMode; SetWarnings;
     SetupInput BUTTON_A; SetupInput BUTTON_B; SetupInput BUTTON_L;
     SetupInput BUTTON_R; SetupInput BUTTON_C;
     AddEventDetect BUTTON_L PrevScreen 300;
     AddEventDetect BUTTON_R NextScreen 300] /\
  snd (setup_buttons true fails)
  = [Stdout "Error setting up buttons: Failed to add edge detection"].
Proof.
  intros fails.
  pose proof (setup_buttons_stops_at_first_failure true fails) as H.
  cbv zeta in H. destruct H as (_ & _ & _ & H).
  apply (H _ (AddEventDetect BUTTON_A PrevCommand 300)
           [AddEventDetect BUTTON_B NextCommand 300;
            AddEventDetect BUTTON_C ExecuteCommand 300]);
    try reflexivity.
  intros c' Hin. cbn in Hin.
  repeat (destruct Hin as [<- | Hin]; [reflexivity|]). destruct Hin.
Defined.

Lemma setup_buttons_prefix available fails :
  exists rest, setup_calls = fst (setup_buttons available fails) ++ rest.
Proof.
  unfold setup_buttons. destruct available; cbn [negb].
  - destruct (gpio_do_spec fails setup_calls) as (rest & Heq & _).
    destruct (gpio_do fails setup_calls) as [done [e|]]; cbn [fst] in *; eauto.
  - exists setup_calls. reflexivity.
Qed.

Lemma firstn_of_prefix {A : Type} (d r : list A) :
  d = firstn (List.length d) (d ++ r).
Proof. induction d as [|a d IH]; cbn; [reflexivity | now rewrite <- IH]. Qed.

Ltac wired_case :=
  repeat apply conj;
  [ intros pin h b Hin; cbn in Hin;
    repeat (destruct Hin as [Hin | Hin];
            [ first [ discriminate Hin
                    | injection Hin as <- <- <-;
                      split; [cbn; auto 15 | reflexivity] ] |]);
    destruct Hin
  | intros h Hh; destruct h; (reflexivity || (cbv in Hh; discriminate Hh))
  | intros Hc; first [ cbv in Hc; discriminate Hc
                     | intros h; destruct h; reflexivity ] ].

(** Whatever call fails, a callback is only ever attached to a pin that was
    first configured as an input, and with a debounce of 300 ms; the
    callbacks are attached in the order Left, Right, Up, Down, Center, so
    that Left works whenever any button does and Center only when all do. *)
Theorem wired_pins_are_inputs :
  forall available fails,
    let done := fst (setup_buttons available fails) in
    (forall pin h b,
        In (AddEventDetect pin h b) done ->
        In (SetupInput pin) done /\ b = 300) /\
    (forall h, wired done h = true -> wired done PrevScreen = true) /\
    (wired done ExecuteCommand = true -> forall h, wired done h = true).
Proof.
  intros available fails. cbn zeta.
  destruct (setup_buttons_prefix available fails) as (rest & Hrest).
  pose proof (firstn_of_prefix (fst (setup_buttons available fails)) rest) as E.
  rewrite <- Hrest in E.
  assert (Hlen : (List.length (fst (setup_buttons available fails)) <= 12)%nat).
  { apply (f_equal (@List.length gpio_call)) in Hrest.
    rewrite length_app in Hrest. cbn in Hrest. lia. }
  revert E Hlen.
  generalize (fst (setup_buttons available fails)). intros done E Hlen.
  remember (List.length done) as k eqn:Hk. clear Hk.
  do 13 (destruct k as [|k]; [cbv in E; rewrite E; clear; wired_case |]).
  exfalso. lia.
Qed.

Lemma wired_pins_are_inputs_witness :
  let fails c := match c with
                 | AddEventDetect 5 PrevCommand 300 =>
                     Some "Failed to add edge detection"%string
                 | _ => None
                 end in
  let done := fst (setup_buttons true fails) in
  (In (SetupInput BUTTON_R) done /\ 300 = 300) /\
  wired done PrevScreen = true.
Proof.
  intros fails done.
  pose proof (wired_pins_are_inputs true fails) as H.
  cbv zeta in H. destruct H as (Hin & Hleft & _).
  split.
  - apply (Hin BUTTON_R NextScreen 300). cbn. auto 15.
  - apply (Hleft NextScreen). reflexivity.
Defined.

(** ** Presses and the idle timer together *)

(** A press of Left or Right, and on the command screen of Up or Down,
    restarts the idle timer: no auto-advance check within the threshold of
    that press moves the screen. *)
Theorem press_postpones_auto_advance :
  forall (now t thr : Q) (s : SystemMonitor),
    (t - now <= thr)%Q ->
    maybe_auto_advance t thr (after (next_screen now s))
      = after (next_screen now s) /\
    maybe_auto_advance t thr (after (prev_screen now s))
      = after (prev_screen now s) /\
    (current_screen s = 3 ->
     maybe_auto_advance t thr (after (next_command now s))
       = after (next_command now s) /\
     maybe_auto_advance t thr (after (prev_command now s))
       = after (prev_command now s) /\
     last_button_press (after (next_command now s)) = now /\
     last_button_press (after (prev_command now s)) = now).
Proof.
  intros now t thr s H. repeat apply conj.
  - apply maybe_auto_advance_quiet. exact H.
  - apply maybe_auto_advance_quiet. exact H.
  - intros Hs. rewrite after_next_command, after_prev_command.
    apply Z.eqb_eq in Hs. rewrite Hs.
    repeat split; try apply maybe_auto_advance_quiet; try exact H.
Qed.

Lemma press_postpones_auto_advance_witness :
  maybe_auto_advance 15%Q 10%Q (after (next_screen 5%Q (init 0%Q)))
    = after (next_screen 5%Q (init 0%Q)) /\
  maybe_auto_advance 15%Q 10%Q (after (next_command 5%Q (mkMonitor 3 0 0%Q true)))
    = after (next_command 5%Q (mkMonitor 3 0 0%Q true)).
Proof.
  split.
  - apply (press_postpones_auto_advance 5%Q 15%Q 10%Q (init 0%Q)).
    vm_compute. discriminate.
  - apply (press_postpones_auto_advance 5%Q 15%Q 10%Q (mkMonitor 3 0 0%Q true)).
    + vm_compute. discriminate.
    + reflexivity.
Defined.

(** ** The range invariant is exact *)

(** Presses that lead from a fresh monitor to screen [c] with command [sel]
    selected, the last of them when the clock reads [t]. *)
Lemma every_state_in_range_is_reached t0 c sel t :
  0 <= c < total_screens -> 0 <= sel < len commands ->
  exists ps,
    fst (run_presses ps (init t0)) = mkMonitor c sel t true.
Proof.
  unfold total_screens. rewrite len_commands. intros Hc Hsel.
  assert (Ec : c = 0 \/ c = 1 \/ c = 2 \/ c = 3) by lia.
  assert (Es : sel = 0 \/ sel = 1) by lia.
  destruct Es as [-> | ->];
    destruct Ec as [-> | [-> | [-> | ->]]].
  - exists [ButtonR t; ButtonL t]. reflexivity.
  - exists [ButtonR t]. reflexivity.
  - exists [ButtonR t; ButtonR t]. reflexivity.
  - exists [ButtonL t]. reflexivity.
  - exists [ButtonL t; ButtonB t; ButtonR t]. reflexivity.
  - exists [ButtonL t; ButtonB t; ButtonR t; ButtonR t]. reflexivity.
  - exists [ButtonL t; ButtonB t; ButtonL t]. reflexivity.
  - exists [ButtonL t; ButtonB t]. reflexivity.
Qed.

Lemma run_presses_as_mutations ps s :
  fst (run_presses ps s) = mutate_all (map Pressed ps) s.
Proof.
  revert s. induction ps as [|p ps IH]; intros s; [reflexivity|].
  cbn [run_presses map]. specialize (IH (after (callback p s))).
  destruct (run_presses ps (after (callback p s))) as [s' out].
  cbn [fst] in *. exact IH.
Qed.

(** The objects the program can reach from a fresh monitor are exactly
    those with the screen in 0..3, the selection in [0, len(commands)) and
    auto-advance on: every screen can be shown with every command selected,
    and button presses alone suffice to get there. *)
Theorem reachable_iff_in_range :
  forall t0 s,
    reachable_from (init t0) s <->
    (0 <= current_screen s < total_screens /\
     0 <= selected_command s < len commands /\
     auto_advance s = true).
Proof.
  intros t0 s. split.
  - intros R.
    destruct (reachable_in_range (init t0) s (init_in_range t0) R) as [Hs Hc].
    pose proof (reachable_auto_advance (init t0) s R) as Ha.
    auto.
  - intros (Hs & Hc & Ha).
    destruct (every_state_in_range_is_reached t0 (current_screen s)
                (selected_command s) (last_button_press s) Hs Hc) as (ps & E).
    assert (Es : s = mkMonitor (current_screen s) (selected_command s)
                       (last_button_press s) true).
    { destruct s as [c sel t a]. cbn in *. subst a. reflexivity. }
    rewrite Es, <- E, run_presses_as_mutations.
    apply mutate_all_reachable.
Qed.

Lemma reachable_iff_in_range_witness :
  reachable_from (init 0%Q) (mkMonitor 2 1 7%Q true).
Proof.
  apply (reachable_iff_in_range 0%Q (mkMonitor 2 1 7%Q true)).
  unfold total_screens. cbn. repeat split; lia.
Defined.

(** ** Telemetry screens *)

Section TelemetryFacts.

Variable float : Type.
Variable milli : float -> float.
Variable fahrenheit : float -> float.
Variable gib : Z -> float.
Variable percent_of : Z -> Z -> float.
Variable too_large : Z -> Z -> bool.
Variable bar_pixels : float -> Z + string.
Variable fmt1 : float -> string.
Variable fmt2 : float -> string.
Variable fzero : float.

Lemma get_cpu_temperature_paired (env : temp_env float) :
  snd (get_cpu_temperature float milli fahrenheit env)
  = option_map fahrenheit (fst (get_cpu_temperature float milli fahrenheit env)).
Proof.
  unfold get_cpu_temperature.
  destruct (zone0 float env); [reflexivity|].
  destruct (zone1 float env); [reflexivity|].
  destruct (sensors float env) as [temps|]; [|reflexivity].
  destruct (first_reading float temps); reflexivity.
Qed.

(** The CPU screen never trips over a missing temperature:
    [get_cpu_temperature] returns both values or neither, so the screen
    either shows both temperature lines or "Temp: N/A", and in both cases
    the usage and load lines, the load being 0.0 when [getloadavg] fails.
    Only a failure of [psutil.cpu_percent] makes the routine raise, before
    anything is drawn. *)
Theorem cpu_screen_survives_missing_temperature :
  forall (env : temp_env float) (load_avg : option float),
    let temp := get_cpu_temperature float milli fahrenheit env in
    let load := match load_avg with Some l => l | None => fzero end in
    snd temp = option_map fahrenheit (fst temp) /\
    (forall usage,
        draw_cpu_screen float fmt1 fmt2 fzero temp (inl usage) load_avg
        = Drawn
            (Text 2 2 "CPU Info (2/4):" Font9 White
             :: match fst temp with
                | None => [Text 2 16 "Temp: N/A" Font11 White]
                | Some c =>
                    [Text 2 16 ("Temp: " ++ fmt1 c ++ degree ++ "C")%string
                       Font11 White;
                     Text 2 28
                       ("      " ++ fmt1 (fahrenheit c) ++ degree ++ "F")%string
                       Font11 White]
                end
             ++ [Text 2 42 ("Usage: " ++ fmt1 usage ++ "%")%string
                   Font9 White;
                 Text 2 54 ("Load: " ++ fmt2 load)%string Font9 White])) /\
    (forall e,
        draw_cpu_screen float fmt1 fmt2 fzero temp (inr e) load_avg
        = DrawRaises [] (Failure e)).
Proof.
  intros env load_avg temp load.
  pose proof (get_cpu_temperature_paired env) as Hp. fold temp in Hp.
  split; [exact Hp|]. split; [|reflexivity].
  intros usage. unfold draw_cpu_screen.
  destruct temp as [[c|] f]; cbn [fst snd option_map] in *.
  - subst f. reflexivity.
  - reflexivity.
Qed.

(** The reading shown comes from the first source that answers: thermal
    zone 0, then thermal zone 1 (both in millidegrees), then the first
    non-empty group of [psutil]; a [psutil] that raises, or that reports
    only empty groups, gives no temperature rather than an error. *)
Theorem temperature_source_order :
  forall (env : temp_env float),
    let temp_c := fst (get_cpu_temperature float milli fahrenheit env) in
    (forall raw, zone0 float env = Some raw -> temp_c = Some (milli raw)) /\
    (forall raw,
        zone0 float env = None -> zone1 float env = Some raw ->
        temp_c = Some (milli raw)) /\
    (zone0 float env = None -> zone1 float env = None ->
     forall temps,
       sensors float env = Some temps ->
       (forall name entries, In (name, entries) temps -> entries = []) ->
       temp_c = None) /\
    (zone0 float env = None -> zone1 float env = None ->
     forall empty name current others rest,
       (forall n entries, In (n, entries) empty -> entries = []) ->
       sensors float env
       = Some (empty ++ (name, current :: others) :: rest) ->
       temp_c = Some current) /\
    (zone0 float env = None -> zone1 float env = None ->
     sensors float env = None -> temp_c = None).
Proof.
  intros env. cbn zeta. unfold get_cpu_temperature.
  assert (Hnone : forall temps,
             (forall name entries, In (name, entries) temps -> entries = []) ->
             first_reading float temps = None).
  { induction temps as [|[n es] temps IH]; intros H; [reflexivity|].
    rewrite (H n es (or_introl eq_refl)). cbn [first_reading].
    apply IH. intros n' es' Hin. apply (H n' es'). right. exact Hin. }
  assert (Hsome : forall empty name current others rest,
             (forall n entries, In (n, entries) empty -> entries = []) ->
             first_reading float (empty ++ (name, current :: others) :: rest)
             = Some current).
  { induction empty as [|[n es] empty IH]; intros name current others rest H;
      [reflexivity|].
    rewrite (H n es (or_introl eq_refl)). cbn [app first_reading].
    apply IH. intros n' es' Hin. apply (H n' es'). right. exact Hin. }
  repeat apply conj.
  - intros raw ->. reflexivity.
  - intros raw -> ->. reflexivity.
  - intros -> -> temps -> H. rewrite (Hnone temps H). reflexivity.
  - intros -> -> empty name current others rest H ->.
    rewrite (Hsome empty name current others rest H). reflexivity.
  - intros -> -> ->. reflexivity.
Qed.

(** The disk screen never trips over a missing value: [get_disk_usage]
    returns four values or none. It returns none when [psutil] raises, for
    a file system of total size 0 and when a quotient is too large for a
    float (the exception is swallowed), and the screen then shows
    "Disk info N/A". Otherwise the screen draws the four lines and the frame
    of the bar; if [int(...)] raises on the percentage the routine raises
    that exception there, else it adds the filled bar when it is at least
    one pixel wide, and everything stays on the display as long as the
    filled bar is at most 123 pixels wide. *)
Theorem disk_screen_survives_empty_disk :
  forall (usage : option (Z * Z * Z)),
    let shown := draw_disk_screen float bar_pixels fmt1
                   (get_disk_usage float gib percent_of too_large usage) in
    let not_available :=
      Drawn [Text 2 2 "Disk Usage (3/4):" Font9 White;
             Text 2 16 "Disk info N/A" Font11 White] in
    (usage = None -> shown = not_available) /\
    (forall total used free,
        usage = Some (total, used, free) ->
        (total = 0 \/ too_large total (1024 ^ 3) = true \/
         too_large used (1024 ^ 3) = true \/
         too_large free (1024 ^ 3) = true \/ too_large used total = true) ->
        shown = not_available) /\
    (forall total used free,
        usage = Some (total, used, free) ->
        total <> 0 ->
        too_large total (1024 ^ 3) = false ->
        too_large used (1024 ^ 3) = false ->
        too_large free (1024 ^ 3) = false ->
        too_large used total = false ->
        match bar_pixels (percent_of used total) with
        | inr e => shown = DrawRaises (disk_lines float gib percent_of fmt1 total used free) (Failure e)
        | inl width =>
            shown
            = Drawn (disk_lines float gib percent_of fmt1 total used free
                     ++ (if 0 <? width then
                           [Rectangle 4 58 (4 + width) 62
                              (Some White) (Some White)]
                         else [])) /\
            (width <= 123 ->
             Forall on_screen
               (disk_lines float gib percent_of fmt1 total used free
                ++ (if 0 <? width then
                      [Rectangle 4 58 (4 + width) 62
                         (Some White) (Some White)]
                    else [])))
        end) /\
    (forall ops, shown <> DrawRaises ops TypeError).
Proof.
  intros usage. cbn zeta. repeat apply conj.
  - intros ->. reflexivity.
  - intros total used free -> H.
    unfold get_disk_usage.
    assert (E : too_large total (1024 ^ 3) || too_large used (1024 ^ 3)
                || too_large free (1024 ^ 3) || (total =? 0)
                || too_large used total = true).
    { rewrite !orb_true_iff, Z.eqb_eq.
      destruct H as [H | [H | [H | [H | H]]]]; auto 10. }
    rewrite E. reflexivity.
  - intros total used free -> Ht H1 H2 H3 H4. apply Z.eqb_neq in Ht.
    unfold get_disk_usage, draw_disk_screen. rewrite H1, H2, H3, H4, Ht.
    cbn [orb].
    destruct (bar_pixels (percent_of used total)) as [width|e];
      [|reflexivity].
    split; [reflexivity|].
    intros Hw. apply Forall_app. split.
    + unfold disk_lines.
      repeat (apply Forall_cons; [unfold on_screen; lia|]). apply Forall_nil.
    + destruct (0 <? width) eqn:E; [apply Z.ltb_lt in E|];
        repeat (apply Forall_cons; [unfold on_screen; lia|]); apply Forall_nil.
  - intros ops. destruct usage as [[[total used] free]|]; [|discriminate].
    unfold get_disk_usage, draw_disk_screen.
    destruct (too_large total (1024 ^ 3) || too_large used (1024 ^ 3)
              || too_large free (1024 ^ 3) || (total =? 0)
              || too_large used total); [discriminate|].
    destruct (bar_pixels (percent_of used total)); discriminate.
Qed.

End TelemetryFacts.

Lemma temperature_source_order_witness :
  let env := mkTemp Q None None
               (Some [("acpitz"%string, []); ("cpu_thermal"%string, [48%Q; 50%Q])]) in
  fst (get_cpu_temperature Q (fun x => x / 1000)%Q (fun c => c * 9 / 5 + 32)%Q env)
  = Some 48%Q.
Proof.
  pose proof (temperature_source_order Q (fun x => x / 1000)%Q
                (fun c => c * 9 / 5 + 32)%Q
                (mkTemp Q None None
                   (Some [("acpitz"%string, []);
                          ("cpu_thermal"%string, [48%Q; 50%Q])]))) as H.
  cbv zeta in H. destruct H as (_ & _ & _ & H & _).
  apply (H eq_refl eq_refl [("acpitz"%string, [])] "cpu_thermal"%string
           48%Q [50%Q] []).
  - intros n entries [[= _ <-] | []]. reflexivity.
  - reflexivity.
Defined.

Lemma disk_screen_survives_empty_disk_witness :
  draw_disk_screen Q (fun p => inl 0) (fun _ => "?"%string)
    (get_disk_usage Q (fun n => inject_Z n) (fun u t => inject_Z u)
       (fun a b => false) (Some (0, 0, 0)))
  = Drawn [Text 2 2 "Disk Usage (3/4):" Font9 White;
           Text 2 16 "Disk info N/A" Font11 White] /\
  Forall on_screen
    (disk_lines Q (fun n => inject_Z n) (fun u t => inject_Z u)
       (fun _ => "?"%string) 8 4 4
     ++ (if 0 <? 60 then
           [Rectangle 4 58 (4 + 60) 62 (Some White) (Some White)]
         else [])).
Proof.
  pose proof (disk_screen_survives_empty_disk Q (fun n => inject_Z n)
                (fun u t => inject_Z u) (fun a b => false) (fun p => inl 0)
                (fun _ => "?"%string) (Some (0, 0, 0))) as Hzero.
  pose proof (disk_screen_survives_empty_disk Q (fun n => inject_Z n)
                (fun u t => inject_Z u) (fun a b => false) (fun p => inl 60)
                (fun _ => "?"%string) (Some (8, 4, 4))) as Hhalf.
  cbv zeta in Hzero, Hhalf.
  destruct Hzero as (_ & Hzero & _). destruct Hhalf as (_ & _ & Hhalf & _).
  split.
  - apply (Hzero 0 0 0); [reflexivity | left; reflexivity].
  - specialize (Hhalf 8 4 4 eq_refl ltac:(discriminate)
                  eq_refl eq_refl eq_refl eq_refl).
    cbv beta iota in Hhalf. apply Hhalf. lia.
Defined.


Lemma host_line_is_cut_witness :
  exists shown,
    nth_error (draw_ip_screen (init 0%Q) (mkNet None None None)
                 "bonnet" "12:00:00") 2
    = Some (Text 2 30 ("Host: " ++ shown)%string Font9 White) /\
    shown = "bonnet"%string.
Proof.
  destruct (host_line_is_cut (init 0%Q) (mkNet None None None)
              "bonnet" "12:00:00" eq_refl)
    as (shown & Hline & _ & _ & _ & Hshort & _).
  exists shown. split; [exact Hline|].
  apply Hshort. cbn. lia.
Defined.
